(** * go-sqlbuilder: the struct-to-column mapper of struct.go

    A shallow embedding of [Struct] and its methods, together with the part
    of Go's [reflect] package the methods go through.  Go panics are made
    explicit: every operation that can panic returns a [result]. *)

From stdpp Require Import base list strings.
From Stdlib Require Import ZArith Lia.

Set Warnings "-register-all".

Open Scope Z_scope.
Open Scope nat_scope.
Open Scope string_scope.
Open Scope list_scope.

(** ** Panics as an error monad *)

Inductive panic : Set :=
| NilFuncCall          (* call of a nil func value *)
| NilDereference       (* method call or load through a nil pointer or nil interface *)
| ZeroValueType        (* reflect: call of reflect.Value.Type on zero Value *)
| ZeroValueInterface   (* reflect: call of reflect.Value.Interface on zero Value *)
| ElemOfInvalidType    (* reflect: Elem of invalid type *)
| NotAStruct           (* reflect: call of reflect.Value.FieldByName on a non-struct Value *)
| IndexOutOfRange      (* index out of range *)
| Unaddressable.       (* reflect.Value.Addr of unaddressable value *)

Inductive result (A : Type) : Type :=
| Ok (a : A)
| Panic (p : panic).
Arguments Ok {A} a.
Arguments Panic {A} p.

Global Instance result_ret : MRet result := fun A a => Ok a.
Global Instance result_bind : MBind result := fun A B f m =>
  match m with
  | Ok a => f a
  | Panic p => Panic p
  end.
Global Instance result_fmap : FMap result := fun A B f m =>
  match m with
  | Ok a => Ok (f a)
  | Panic p => Panic p
  end.

(** A Go [for ... range] loop whose body may panic: a left fold in [result]. *)
Fixpoint foldlM {A B : Type} (f : A -> B -> result A) (a : A) (l : list B) : result A :=
  match l with
  | [] => Ok a
  | x :: l' => a' ← f a x; foldlM f a' l'
  end.

(** [for i, x := range l]: the elements of [l] paired with their indices. *)
Definition enumerate {A : Type} (l : list A) : list (nat * A) :=
  zip (seq 0 (length l)) l.

(** [l[i]], which panics when [i] is out of range. *)
Definition index {A : Type} (l : list A) (i : nat) : result A :=
  match l !! i with
  | Some x => Ok x
  | None => Panic IndexOutOfRange
  end.

(** ** The fragment of [reflect] used by struct.go *)

(** [reflect.Kind], with the kinds grouped as the cases of [isEmptyValue]
    group them: [Int] stands for Int, Int8, ..., Int64; [Uint] for Uint, ...,
    Uintptr; [Float] for Float32 and Float64; [Complex] for Complex64 and
    Complex128. *)
Module reflect.

Inductive Kind : Set :=
| Invalid | Bool | Int | Uint | Float | Complex | Array | Chan | Func
| Interface | Map | Ptr | Slice | String | Struct | UnsafePointer.

End reflect.

Global Instance Kind_eq_dec : EqDecision reflect.Kind.
Proof. solve_decision. Defined.

(** A field's struct tag, already split into the four keys struct.go names
    ([DBTag], [FieldTag], [FieldOpt], [FieldAs]).  For [fieldopt], [withquote]
    and [omitempty] are the two recognised options; [omitempty] may carry a
    parameter list of tags: [None] = option absent, [Some []] = [omitempty]
    without parameters. *)
Record StructTag : Set := {
  tagDB : option string;
  tagFieldTag : list string;
  tagWithQuote : bool;
  tagOmitEmpty : option (list string);
  tagFieldAs : option string
}.

Global Instance StructTag_eq_dec : EqDecision StructTag.
Proof. solve_decision. Defined.

(** [reflect.StructField]: the declared name, the package path (empty for an
    exported field) and the tag.  The field's own type is not consulted by
    the code modelled here. *)
Record StructField : Set := {
  fieldName : string;
  fieldPkgPath : string;
  fieldTag : StructTag
}.

Global Instance StructField_eq_dec : EqDecision StructField.
Proof. solve_decision. Defined.

Record StructType : Set := {
  typeName : string;
  typeFields : list StructField
}.

Global Instance StructType_eq_dec : EqDecision StructType.
Proof. solve_decision. Defined.

(** [reflect.Type].  Only pointer and struct types carry structure the code
    looks at; the other types are identified by their kind. *)
Inductive rtype : Set :=
| TBool | TInt | TUint | TFloat | TComplex | TArray | TChan | TFunc
| TInterface | TMap | TSlice | TString | TUnsafePointer
| TPtr (elem : rtype)
| TStruct (st : StructType).

Global Instance rtype_eq_dec : EqDecision rtype.
Proof. solve_decision. Defined.

Definition Type_Kind (t : rtype) : reflect.Kind :=
  match t with
  | TBool => reflect.Bool | TInt => reflect.Int | TUint => reflect.Uint
  | TFloat => reflect.Float | TComplex => reflect.Complex
  | TArray => reflect.Array | TChan => reflect.Chan | TFunc => reflect.Func
  | TInterface => reflect.Interface | TMap => reflect.Map
  | TSlice => reflect.Slice | TString => reflect.String
  | TUnsafePointer => reflect.UnsafePointer
  | TPtr _ => reflect.Ptr
  | TStruct _ => reflect.Struct
  end.

(** The kinds whose values are tested with [IsNil] and carry nothing else the
    code inspects. *)
Inductive NilableKind : Set := KChan | KFunc | KMap | KSlice | KUnsafePointer.

(** [reflect.Value].  Numbers are unbounded integers (only the comparison
    with zero matters); a float is given by [math.Float64bits] of [v.Float()],
    a complex by the bits of its two parts.  Values are finite trees: a
    pointer cycle is not representable. *)
Inductive value : Set :=
| VInvalid
| VBool (b : bool)
| VInt (n : Z)
| VUint (n : Z)
| VFloat (bits : Z)
| VComplex (reBits imBits : Z)
| VArray (elems : list value)
| VNilable (k : NilableKind) (isNil : bool)
| VNilInterface
| VInterface (elem : value)
| VNilPtr (t : rtype)
| VPtr (elem : value)
| VString (s : string)
| VStruct (st : StructType) (fields : list (string * value)).

(** A Go [interface{}]: [None] is the nil interface. *)
Definition iface : Set := option value.
Definition nil : iface := None.

Definition ValueOf (i : iface) : value :=
  match i with
  | Some v => v
  | None => VInvalid
  end.

Definition NilableKind_Kind (k : NilableKind) : reflect.Kind :=
  match k with
  | KChan => reflect.Chan | KFunc => reflect.Func | KMap => reflect.Map
  | KSlice => reflect.Slice | KUnsafePointer => reflect.UnsafePointer
  end.

Definition NilableKind_Type (k : NilableKind) : rtype :=
  match k with
  | KChan => TChan | KFunc => TFunc | KMap => TMap | KSlice => TSlice
  | KUnsafePointer => TUnsafePointer
  end.

Definition Value_Kind (v : value) : reflect.Kind :=
  match v with
  | VInvalid => reflect.Invalid
  | VBool _ => reflect.Bool
  | VInt _ => reflect.Int
  | VUint _ => reflect.Uint
  | VFloat _ => reflect.Float
  | VComplex _ _ => reflect.Complex
  | VArray _ => reflect.Array
  | VNilable k _ => NilableKind_Kind k
  | VNilInterface | VInterface _ => reflect.Interface
  | VNilPtr _ | VPtr _ => reflect.Ptr
  | VString _ => reflect.String
  | VStruct _ _ => reflect.Struct
  end.

Definition IsValid (v : value) : bool :=
  match v with
  | VInvalid => false
  | _ => true
  end.

(** [v.Type()], which panics on the zero Value. *)
Fixpoint Value_Type (v : value) : result rtype :=
  match v with
  | VInvalid => Panic ZeroValueType
  | VBool _ => Ok TBool
  | VInt _ => Ok TInt
  | VUint _ => Ok TUint
  | VFloat _ => Ok TFloat
  | VComplex _ _ => Ok TComplex
  | VArray _ => Ok TArray
  | VNilable k _ => Ok (NilableKind_Type k)
  | VNilInterface | VInterface _ => Ok TInterface
  | VNilPtr t => Ok (TPtr t)
  | VPtr e => TPtr <$> Value_Type e
  | VString _ => Ok TString
  | VStruct st _ => Ok (TStruct st)
  end.

(** [reflect.TypeOf]: the nil interface has the nil Type. *)
Definition TypeOf (i : iface) : option rtype :=
  match i with
  | None => None
  | Some v =>
      match Value_Type v with
      | Ok t => Some t
      | Panic _ => None
      end
  end.

(** [v.FieldByName(name)]: the zero Value when the struct has no such field;
    panics when [v] is not a struct. *)
Definition lookupField (fields : list (string * value)) (name : string) : value :=
  match find (fun f => String.eqb (fst f) name) fields with
  | Some f => snd f
  | None => VInvalid
  end.

Definition FieldByName (v : value) (name : string) : result value :=
  match v with
  | VStruct _ fields => Ok (lookupField fields name)
  | _ => Panic NotAStruct
  end.

(** [v.Interface()]: of an interface-kinded Value it is the element inside. *)
Definition Value_Interface (v : value) : result iface :=
  match v with
  | VInvalid => Panic ZeroValueInterface
  | VNilInterface => Ok nil
  | VInterface e => Ok (Some e)
  | _ => Ok (Some v)
  end.

(** ** Helpers at the end of struct.go *)

(** [dereferencedType]: follows [t.Elem()] while the kind is [Ptr] or
    [Interface].  [t.Kind()] on the nil Type is a nil dereference, and
    [Elem] of an interface type panics. *)
Fixpoint derefType (t : rtype) : result rtype :=
  match t with
  | TPtr elem => derefType elem
  | TInterface => Panic ElemOfInvalidType
  | _ => Ok t
  end.

Definition dereferencedType (t : option rtype) : result rtype :=
  match t with
  | None => Panic NilDereference
  | Some t => derefType t
  end.

(** [dereferencedValue]: follows [v.Elem()] while the kind is [Ptr] or
    [Interface]; [Elem] of a nil pointer or nil interface is the zero Value,
    whose kind [Invalid] ends the loop. *)
Fixpoint dereferencedValue (v : value) : value :=
  match v with
  | VPtr elem => dereferencedValue elem
  | VInterface elem => dereferencedValue elem
  | VNilPtr _ => VInvalid
  | VNilInterface => VInvalid
  | _ => v
  end.

(** [isEmptyValue]: the switch on [v.Kind()]. *)
Fixpoint isEmptyValue (v : value) : bool :=
  match v with
  | VBool b => negb b
  | VInt n => (n =? 0)%Z
  | VUint n => (n =? 0)%Z
  | VFloat bits => (bits =? 0)%Z
  | VComplex re im => (re =? 0)%Z && (im =? 0)%Z
  | VArray elems => forallb isEmptyValue elems
  | VNilable _ isNil => isNil
  | VNilInterface => true
  | VInterface _ => false
  | VNilPtr _ => true
  | VPtr _ => false
  | VString s => Nat.eqb (String.length s) 0
  | VStruct _ fields => forallb (fun f => isEmptyValue (snd f)) fields
  | VInvalid => false
  end.

(** [CanAddr] of the Value [dereferencedValue v] arrives at, for [v] obtained
    from [reflect.ValueOf]: a Value is addressable exactly when the last
    [Elem] that produced it went through a pointer. *)
Fixpoint derefCanAddr (v : value) : bool :=
  match v with
  | VPtr elem =>
      match Value_Kind elem with
      | reflect.Ptr | reflect.Interface => derefCanAddr elem
      | _ => true
      end
  | VInterface elem => derefCanAddr elem
  | _ => false
  end.

(** ** Field metadata

    structfields.go is not among the sources at hand; struct.go uses its
    types [structField], [structTaggedFields], [structFields] and
    [structFieldsParser] through the fields and methods below. *)

(** Modelled from the spec: the FieldDescriptor of section 3 (declared name,
    column name, alias, tag groups, quoting flag, omit-empty option).  [Name]
    and [Alias] are the two fields struct.go reads.  The omit-empty option is
    kept as the list of tags it is scoped to, the empty tag standing for the
    option without parameter. *)
Record structField : Set := {
  Name : string;
  ColumnName : string;
  Alias : string;
  Tags : list string;
  IsQuoted : bool;
  omitEmptyTags : list string
}.

(** Modelled from the spec: [sf.ShouldOmitEmpty(tags...)] of structfields.go,
    section 4.1: the omit-empty option applies when it is scoped to one of
    [tags]; struct.go always asks for the empty tag (the option without
    parameter, which applies to all tags) together with the requested one. *)
Definition ShouldOmitEmpty (sf : structField) (tags : list string) : bool :=
  existsb (fun t => bool_decide (t ∈ omitEmptyTags sf)) tags.

(** Modelled from the spec: the TaggedView of section 3, [*structTaggedFields]
    in struct.go, which reads its [ForRead] and [ForWrite]. *)
Record structTaggedFields : Set := {
  ForRead : list structField;
  ForWrite : list structField
}.

(** Modelled from the spec: the TypeDescriptor of section 3, [*structFields]
    in struct.go, seen through its method [Tag]; [None] is the nil
    [*structTaggedFields] of a tag whose view is absent. *)
Record structFields : Set := {
  Tag : string -> option structTaggedFields
}.

(** [type structFieldsParser func() *structFields]. *)
Definition structFieldsParser : Set := unit -> structFields.

Definition FieldMapperFunc : Set := string -> string.

(** Modelled from the spec: the per-field parse of structfields.go, section 3:
    the column name is the mapped declared name unless the name annotation
    overrides it, the alias is the column name unless the alias annotation
    overrides it. *)
Definition parseField (mapper : FieldMapperFunc) (f : StructField) : structField :=
  let col := default (mapper (fieldName f)) (tagDB (fieldTag f)) in
  {| Name := fieldName f;
     ColumnName := col;
     Alias := default col (tagFieldAs (fieldTag f));
     Tags := tagFieldTag (fieldTag f);
     IsQuoted := tagWithQuote (fieldTag f);
     omitEmptyTags :=
       match tagOmitEmpty (fieldTag f) with
       | None => []
       | Some [] => [""]
       | Some ts => ts
       end |}.

Definition exported (f : StructField) : bool :=
  bool_decide (fieldPkgPath f = "").

(** Modelled from the spec: [resolve] of section 4.2, the descriptors of the
    exported fields in declaration order. *)
Definition resolve (mapper : FieldMapperFunc) (st : StructType) : list structField :=
  parseField mapper <$> List.filter exported (typeFields st).

(** Modelled from the spec: [forTag] of section 4.3.  Without any tag group
    on the type every field is in the view of any tag; otherwise the view of
    a tag holds the fields of that group, and is absent when there is none. *)
Definition forTag (fields : list structField) (tag : string) : option structTaggedFields :=
  if forallb (fun sf => bool_decide (Tags sf = [])) fields
  then Some {| ForRead := fields; ForWrite := fields |}
  else
    match List.filter (fun sf => bool_decide (tag ∈ Tags sf)) fields with
    | [] => None
    | view => Some {| ForRead := view; ForWrite := view |}
    end.

(** Modelled from the spec: [makeFieldsParser] of structfields.go; the parse
    is memoised there, which a pure function does not show. *)
Definition makeFieldsParser (t : rtype) (mapper : FieldMapperFunc) : structFieldsParser :=
  fun _ =>
    match t with
    | TStruct st => {| Tag := forTag (resolve mapper st) |}
    | _ => {| Tag := forTag [] |}
    end.

(** ** The mapper *)

(** What struct.go takes from files that are not among the sources at hand:
    the dialect handle of flavor.go with its zero value and the package
    default, the two methods of [structField] that render a field under a
    dialect, the package's default field mapper, and the lookup of a view's
    fields by column names. *)
Class Externals : Type := {
  Flavor : Type;
  zeroFlavor : Flavor;
  DefaultFlavor : Flavor;
  Quote : structField -> Flavor -> string;          (* sf.Quote(flavor) *)
  NameForSelect : structField -> Flavor -> string;  (* sf.NameForSelect(flavor) *)
  DefaultFieldMapper : FieldMapperFunc;
  Cols : structTaggedFields -> list string -> option (list structField)
                                                    (* tagged.Cols(cols), nil = None *)
}.

Section Mapper.

Context `{Externals}.

(** *** Statement builders

    The builders of select.go, update.go, insert.go and delete.go are not
    among the sources at hand. *)

(** Modelled from the spec: the SELECT builder of section 6, which keeps the
    table and the selected columns the mapper hands to it. *)
Record SelectBuilder : Type := {
  sb_flavor : Flavor;
  sb_tables : list string;
  sb_selectCols : list string
}.

Definition NewSelectBuilder (f : Flavor) : SelectBuilder :=
  {| sb_flavor := f; sb_tables := []; sb_selectCols := [] |}.
Definition SelectBuilder_From (sb : SelectBuilder) (table : string) : SelectBuilder :=
  {| sb_flavor := sb_flavor sb; sb_tables := [table]; sb_selectCols := sb_selectCols sb |}.
Definition SelectBuilder_Select (sb : SelectBuilder) (cols : list string) : SelectBuilder :=
  {| sb_flavor := sb_flavor sb; sb_tables := sb_tables sb; sb_selectCols := cols |}.

(** Modelled from the spec: an assignment [field = value], as the builder's
    [Assign] makes it (section 6, addAssignment). *)
Definition assignment : Type := string * iface.

(** Modelled from the spec: the UPDATE builder of section 6, which keeps the
    table and the assignments. *)
Record UpdateBuilder : Type := {
  ub_flavor : Flavor;
  ub_table : string;
  ub_assignments : list assignment
}.

Definition NewUpdateBuilder (f : Flavor) : UpdateBuilder :=
  {| ub_flavor := f; ub_table := ""; ub_assignments := [] |}.
Definition UpdateBuilder_Update (ub : UpdateBuilder) (table : string) : UpdateBuilder :=
  {| ub_flavor := ub_flavor ub; ub_table := table; ub_assignments := ub_assignments ub |}.
Definition UpdateBuilder_Assign (ub : UpdateBuilder) (field : string) (data : iface) : assignment :=
  (field, data).
Definition UpdateBuilder_Set (ub : UpdateBuilder) (assignments : list assignment) : UpdateBuilder :=
  {| ub_flavor := ub_flavor ub; ub_table := ub_table ub; ub_assignments := assignments |}.

(** Modelled from the spec: the three insert verbs of section 4.5;
    [verbNone] is a builder on which no verb was set yet. *)
Inductive insertVerb : Set := verbNone | verbInsert | verbInsertIgnore | verbReplace.

(** Modelled from the spec: the INSERT builder of section 6: [Cols] sets the
    column list (setColumns), [Values] adds one value row (addValueRow). *)
Record InsertBuilder : Type := {
  ib_flavor : Flavor;
  ib_verb : insertVerb;
  ib_table : string;
  ib_cols : list string;
  ib_values : list (list iface)
}.

Definition NewInsertBuilder (f : Flavor) : InsertBuilder :=
  {| ib_flavor := f; ib_verb := verbNone; ib_table := ""; ib_cols := []; ib_values := [] |}.
Definition withVerb (verb : insertVerb) (table : string) (ib : InsertBuilder) : InsertBuilder :=
  {| ib_flavor := ib_flavor ib; ib_verb := verb; ib_table := table;
     ib_cols := ib_cols ib; ib_values := ib_values ib |}.
Definition InsertBuilder_InsertInto (ib : InsertBuilder) (table : string) : InsertBuilder :=
  withVerb verbInsert table ib.
Definition InsertBuilder_InsertIgnoreInto (ib : InsertBuilder) (table : string) : InsertBuilder :=
  withVerb verbInsertIgnore table ib.
Definition InsertBuilder_ReplaceInto (ib : InsertBuilder) (table : string) : InsertBuilder :=
  withVerb verbReplace table ib.
Definition InsertBuilder_Cols (ib : InsertBuilder) (cols : list string) : InsertBuilder :=
  {| ib_flavor := ib_flavor ib; ib_verb := ib_verb ib; ib_table := ib_table ib;
     ib_cols := cols; ib_values := ib_values ib |}.
Definition InsertBuilder_Values (ib : InsertBuilder) (value : list iface) : InsertBuilder :=
  {| ib_flavor := ib_flavor ib; ib_verb := ib_verb ib; ib_table := ib_table ib;
     ib_cols := ib_cols ib; ib_values := ib_values ib ++ [value] |}.

(** Modelled from the spec: the DELETE builder of section 6. *)
Record DeleteBuilder : Type := {
  db_flavor : Flavor;
  db_table : string
}.

Definition NewDeleteBuilder (f : Flavor) : DeleteBuilder :=
  {| db_flavor := f; db_table := "" |}.
Definition DeleteBuilder_DeleteFrom (db : DeleteBuilder) (table : string) : DeleteBuilder :=
  {| db_flavor := db_flavor db; db_table := table |}.

(** *** [Struct] and the store of [Struct] values *)

Record Struct : Type := {
  Struct_Flavor : Flavor;
  Struct_structType : option rtype;                      (* nil = None *)
  Struct_structFieldsParser : option structFieldsParser; (* nil func = None *)
  Struct_structTag : string
}.

(** [var emptyStruct Struct]: the zero value. *)
Definition emptyStruct : Struct :=
  {| Struct_Flavor := zeroFlavor;
     Struct_structType := None;
     Struct_structFieldsParser := None;
     Struct_structTag := "" |}.

(** The methods have pointer receivers, and [NewStruct] and the configuration
    methods hand out pointers: the store maps an address to the [Struct] it
    holds.  Address [0] is the package variable [emptyStruct]. *)
Definition heap : Type := list Struct.
Definition ptr : Set := nat.

Definition emptyStructAddr : ptr := 0.
Definition initHeap : heap := [emptyStruct].

(** [*s]; a nil or dangling pointer has no cell. *)
Definition load (h : heap) (s : ptr) : result Struct :=
  match h !! s with
  | Some c => Ok c
  | None => Panic NilDereference
  end.

(** [&c] for a fresh local [c] that escapes. *)
Definition alloc (h : heap) (c : Struct) : heap * ptr :=
  (h ++ [c], length h).

(** [s.structFieldsParser()]: calling a nil func panics. *)
Definition callParser (s : Struct) : result structFields :=
  match Struct_structFieldsParser s with
  | Some parser => Ok (parser ())
  | None => Panic NilFuncCall
  end.

(** Modelled from the spec: the two constructors of a field parser in
    structfields.go, with the package's default mapper and with a custom
    one. *)
Definition makeDefaultFieldsParser (t : rtype) : structFieldsParser :=
  makeFieldsParser t DefaultFieldMapper.
Definition makeCustomFieldsParser (t : rtype) (mapper : FieldMapperFunc) : structFieldsParser :=
  makeFieldsParser t mapper.

Definition NewStruct (h : heap) (structValue : iface) : result (heap * ptr) :=
  t ← dereferencedType (TypeOf structValue);
  if bool_decide (Type_Kind t ≠ reflect.Struct) then Ok (h, emptyStructAddr)
  else Ok (alloc h {| Struct_Flavor := DefaultFlavor;
                      Struct_structType := Some t;
                      Struct_structFieldsParser := Some (makeDefaultFieldsParser t);
                      Struct_structTag := "" |}).

Definition For (h : heap) (s : ptr) (flavor : Flavor) : result (heap * ptr) :=
  c ← load h s;
  Ok (alloc h {| Struct_Flavor := flavor;
                 Struct_structType := Struct_structType c;
                 Struct_structFieldsParser := Struct_structFieldsParser c;
                 Struct_structTag := Struct_structTag c |}).

Definition WithFieldMapper (h : heap) (s : ptr) (mapper : FieldMapperFunc) : result (heap * ptr) :=
  c ← load h s;
  match Struct_structType c with
  | None => Ok (h, emptyStructAddr)
  | Some t =>
      Ok (alloc h {| Struct_Flavor := Struct_Flavor c;
                     Struct_structType := Struct_structType c;
                     Struct_structFieldsParser := Some (makeCustomFieldsParser t mapper);
                     Struct_structTag := Struct_structTag c |})
  end.

Definition WithTag (h : heap) (s : ptr) (tag : string) : result (heap * ptr) :=
  c ← load h s;
  Ok (alloc h {| Struct_Flavor := Struct_Flavor c;
                 Struct_structType := Struct_structType c;
                 Struct_structFieldsParser := Struct_structFieldsParser c;
                 Struct_structTag := tag |}).

(** *** Statement skeletons

    The methods below only read their receiver; they take the [Struct] the
    receiver points to. *)

Definition SelectFromForTag (s : Struct) (table tag : string) : result SelectBuilder :=
  sfs ← callParser s;
  let tagged := Tag sfs tag in
  let sb := NewSelectBuilder (Struct_Flavor s) in
  let sb := SelectBuilder_From sb table in
  match tagged with
  | None => Ok (SelectBuilder_Select sb ["*"])
  | Some tagged =>
      let cols :=
        foldl (fun cols sf => cols ++ [table +:+ "." +:+ NameForSelect sf (Struct_Flavor s)])
              [] (ForRead tagged) in
      Ok (SelectBuilder_Select sb cols)
  end.

Definition SelectFrom (s : Struct) (table : string) : result SelectBuilder :=
  SelectFromForTag s table (Struct_structTag s).

(** The body of the loop of [UpdateForTag]: [continue] leaves [assignments]
    as they are. *)
Definition assignField (s : Struct) (ub : UpdateBuilder) (tag : string) (v : value)
    (assignments : list assignment) (sf : structField) : result (list assignment) :=
  let name := Name sf in
  val ← FieldByName v name;
  if isEmptyValue val && ShouldOmitEmpty sf [""; tag] then Ok assignments
  else
    let val := if isEmptyValue val then val else dereferencedValue val in
    data ← Value_Interface val;
    Ok (assignments ++ [UpdateBuilder_Assign ub (Quote sf (Struct_Flavor s)) data]).

Definition UpdateForTag (s : Struct) (table tag : string) (value : iface) : result UpdateBuilder :=
  sfs ← callParser s;
  let tagged := Tag sfs tag in
  let ub := NewUpdateBuilder (Struct_Flavor s) in
  let ub := UpdateBuilder_Update ub table in
  match tagged with
  | None => Ok ub
  | Some tagged =>
      let v := dereferencedValue (ValueOf value) in
      t ← Value_Type v;
      if bool_decide (Some t ≠ Struct_structType s) then Ok ub
      else
        assignments ← foldlM (assignField s ub tag v) [] (ForWrite tagged);
        Ok (UpdateBuilder_Set ub assignments)
  end.

Definition Update (s : Struct) (table : string) (value : iface) : result UpdateBuilder :=
  UpdateForTag s table (Struct_structTag s) value.

(** [values[i] = append(values[i], x)]. *)
Definition appendAt (values : list (list iface)) (i : nat) (x : iface) : list (list iface) :=
  alter (fun row => row ++ [x]) i values.

(** First loop of [buildColsAndValuesForTag]: the dereferenced items whose
    type is the bound type. *)
Definition matchingValues (s : Struct) (items : list iface) : result (list value) :=
  foldlM (fun vs item =>
            let v := dereferencedValue (ValueOf item) in
            t ← Value_Type v;
            Ok (if bool_decide (Some t = Struct_structType s) then vs ++ [v] else vs))
         [] items.

(** The body of the inner loop over [vs], for the field [name]: one cell
    more in row [i], and one more counted when the value is empty and may be
    omitted. *)
Definition gatherCell (name : string) (shouldOmitEmpty : bool)
    (state : list (list iface) * nat) (iv : nat * value) : result (list (list iface) * nat) :=
  let '(values, nilCnt) := state in
  let '(i, v) := iv in
  val ← FieldByName v name;
  let nilCnt := if isEmptyValue val && shouldOmitEmpty then S nilCnt else nilCnt in
  let val := dereferencedValue val in
  if IsValid val
  then data ← Value_Interface val; Ok (appendAt values i data, nilCnt)
  else Ok (appendAt values i nil, nilCnt).

(** The inner loop for one field, from [nilCnt := 0]. *)
Definition gatherColumn (tag : string) (sf : structField) (vs : list value)
    (values : list (list iface)) : result (list (list iface) * nat) :=
  let name := Name sf in
  let shouldOmitEmpty := ShouldOmitEmpty sf [""; tag] in
  foldlM (gatherCell name shouldOmitEmpty) (values, 0) (enumerate vs).

(** The body of the loop over [tagged.ForWrite]; the state is
    [(cols, values, nilCols)]. *)
Definition gatherField (s : Struct) (tag : string) (vs : list value)
    (state : list string * list (list iface) * list nat) (sf : structField)
    : result (list string * list (list iface) * list nat) :=
  let '(cols, values, nilCols) := state in
  let cols := cols ++ [Quote sf (Struct_Flavor s)] in
  '(values, nilCnt) ← gatherColumn tag sf vs values;
  Ok (cols, values, nilCols ++ [nilCnt]).

Definition gatherColumns (s : Struct) (tag : string) (vs : list value)
    (forWrite : list structField) : result (list string * list (list iface) * list nat) :=
  foldlM (gatherField s tag vs) ([], replicate (length vs) [], []) forWrite.

(** The body of the loop over [values] that copies column [i]. *)
Definition filterCell (i : nat) (filteredValues : list (list iface))
    (nv : nat * list iface) : result (list (list iface)) :=
  let '(n, value) := nv in
  cell ← index value i;
  Ok (appendAt filteredValues n cell).

(** The body of the loop over [nilCols]; the state is
    [(filteredCols, filteredValues)]. *)
Definition filterColumn (cols : list string) (values : list (list iface))
    (state : list string * list (list iface)) (ic : nat * nat)
    : result (list string * list (list iface)) :=
  let '(filteredCols, filteredValues) := state in
  let '(i, cnt) := ic in
  if Nat.eqb cnt (length values) then Ok (filteredCols, filteredValues)
  else
    col ← index cols i;
    let filteredCols := filteredCols ++ [col] in
    filteredValues ← foldlM (filterCell i) filteredValues (enumerate values);
    Ok (filteredCols, filteredValues).

Definition filterColumns (cols : list string) (values : list (list iface))
    (nilCols : list nat) : result (list string * list (list iface)) :=
  foldlM (filterColumn cols values) ([], replicate (length values) []) (enumerate nilCols).

Definition buildColsAndValuesForTag (s : Struct) (ib : InsertBuilder) (tag : string)
    (items : list iface) : result InsertBuilder :=
  sfs ← callParser s;
  let tagged := Tag sfs tag in
  match tagged with
  | None => Ok ib
  | Some tagged =>
      vs ← matchingValues s items;
      if Nat.eqb (length vs) 0 then Ok ib
      else
        '(cols, values, nilCols) ← gatherColumns s tag vs (ForWrite tagged);
        '(filteredCols, filteredValues) ← filterColumns cols values nilCols;
        let ib := InsertBuilder_Cols ib filteredCols in
        Ok (foldl InsertBuilder_Values ib filteredValues)
  end.

Definition InsertIntoForTag (s : Struct) (table tag : string) (items : list iface)
    : result InsertBuilder :=
  let ib := NewInsertBuilder (Struct_Flavor s) in
  let ib := InsertBuilder_InsertInto ib table in
  buildColsAndValuesForTag s ib tag items.

Definition InsertIgnoreIntoForTag (s : Struct) (table tag : string) (items : list iface)
    : result InsertBuilder :=
  let ib := NewInsertBuilder (Struct_Flavor s) in
  let ib := InsertBuilder_InsertIgnoreInto ib table in
  buildColsAndValuesForTag s ib tag items.

Definition ReplaceIntoForTag (s : Struct) (table tag : string) (items : list iface)
    : result InsertBuilder :=
  let ib := NewInsertBuilder (Struct_Flavor s) in
  let ib := InsertBuilder_ReplaceInto ib table in
  buildColsAndValuesForTag s ib tag items.

Definition InsertInto (s : Struct) (table : string) (items : list iface) : result InsertBuilder :=
  InsertIntoForTag s table (Struct_structTag s) items.

Definition InsertIgnoreInto (s : Struct) (table : string) (items : list iface)
    : result InsertBuilder :=
  InsertIgnoreIntoForTag s table (Struct_structTag s) items.

Definition ReplaceInto (s : Struct) (table : string) (items : list iface) : result InsertBuilder :=
  ReplaceIntoForTag s table (Struct_structTag s) items.

Definition DeleteFrom (s : Struct) (table : string) : result DeleteBuilder :=
  let db := NewDeleteBuilder (Struct_Flavor s) in
  Ok (DeleteBuilder_DeleteFrom db table).

(** *** Addresses, columns and values

    A [[]interface{}] or [[]string] result is a list; the nil slice is the
    empty list. *)

(** [.Addr()]: a pointer to the Value, which panics unless it is addressable. *)
Definition Value_Addr (canAddr : bool) (v : value) : result value :=
  if canAddr && IsValid v then Ok (VPtr v) else Panic Unaddressable.

Definition addrWithFields (s : Struct) (fields : list structField) (st : iface)
    : result (list iface) :=
  let v := dereferencedValue (ValueOf st) in
  t ← Value_Type v;
  if bool_decide (Some t ≠ Struct_structType s) then Ok []
  else
    foldlM (fun addrs sf =>
              let name := Name sf in
              field ← FieldByName v name;
              addr ← Value_Addr (derefCanAddr (ValueOf st)) field;
              data ← Value_Interface addr;
              Ok (addrs ++ [data]))
           [] fields.

Definition AddrForTag (s : Struct) (tag : string) (st : iface) : result (list iface) :=
  sfs ← callParser s;
  let tagged := Tag sfs tag in
  match tagged with
  | None => Ok []
  | Some tagged => addrWithFields s (ForRead tagged) st
  end.

Definition Addr (s : Struct) (st : iface) : result (list iface) :=
  AddrForTag s (Struct_structTag s) st.

Definition AddrWithCols (s : Struct) (cols : list string) (st : iface) : result (list iface) :=
  sfs ← callParser s;
  let tagged := Tag sfs (Struct_structTag s) in
  match tagged with
  | None => Ok []
  | Some tagged =>
      match Cols tagged cols with
      | None => Ok []
      | Some fields => addrWithFields s fields st
      end
  end.

Definition ColumnsForTag (s : Struct) (tag : string) : result (list string) :=
  sfs ← callParser s;
  let tagged := Tag sfs tag in
  match tagged with
  | None => Ok []
  | Some tagged => Ok (foldl (fun cols sf => cols ++ [Alias sf]) [] (ForWrite tagged))
  end.

Definition Columns (s : Struct) : result (list string) :=
  ColumnsForTag s (Struct_structTag s).

Definition ValuesForTag (s : Struct) (tag : string) (value : iface) : result (list iface) :=
  sfs ← callParser s;
  let tagged := Tag sfs tag in
  match tagged with
  | None => Ok []
  | Some tagged =>
      let v := dereferencedValue (ValueOf value) in
      t ← Value_Type v;
      if bool_decide (Some t ≠ Struct_structType s) then Ok []
      else
        foldlM (fun values sf =>
                  let name := Name sf in
                  field ← FieldByName v name;
                  data ← Value_Interface field;
                  Ok (values ++ [data]))
               [] (ForWrite tagged)
  end.

Definition Values (s : Struct) (value : iface) : result (list iface) :=
  ValuesForTag s (Struct_structTag s) value.

(** A method called through a pointer: the receiver is loaded first. *)
Definition call {A : Type} (h : heap) (s : ptr) (method : Struct -> result A) : result A :=
  c ← load h s; method c.

(** *** The configuration methods, as one call *)

Inductive config : Type :=
| ConfFor (flavor : Flavor)
| ConfWithFieldMapper (mapper : FieldMapperFunc)
| ConfWithTag (tag : string).

Definition configure (h : heap) (s : ptr) (cfg : config) : result (heap * ptr) :=
  match cfg with
  | ConfFor flavor => For h s flavor
  | ConfWithFieldMapper mapper => WithFieldMapper h s mapper
  | ConfWithTag tag => WithTag h s tag
  end.

(** [c'] is [c] with the setting of [cfg] and every other field as in [c]. *)
Definition configured (cfg : config) (c c' : Struct) : Prop :=
  match cfg with
  | ConfFor flavor =>
      Struct_Flavor c' = flavor
      /\ Struct_structType c' = Struct_structType c
      /\ Struct_structFieldsParser c' = Struct_structFieldsParser c
      /\ Struct_structTag c' = Struct_structTag c
  | ConfWithFieldMapper mapper =>
      Struct_Flavor c' = Struct_Flavor c
      /\ Struct_structType c' = Struct_structType c
      /\ (exists t, Struct_structType c = Some t
                    /\ Struct_structFieldsParser c' = Some (makeCustomFieldsParser t mapper))
      /\ Struct_structTag c' = Struct_structTag c
  | ConfWithTag tag =>
      Struct_Flavor c' = Struct_Flavor c
      /\ Struct_structType c' = Struct_structType c
      /\ Struct_structFieldsParser c' = Struct_structFieldsParser c
      /\ Struct_structTag c' = tag
  end.

(** *** Vocabulary of the statements *)

(** The field [name] of a record; the zero Value when there is none. *)
Definition fieldValue (v : value) (name : string) : value :=
  match v with
  | VStruct _ fields => lookupField fields name
  | _ => VInvalid
  end.

(** The omit-empty option of [sf] applies to [tag]. *)
Definition omitEmptyApplies (sf : structField) (tag : string) : bool :=
  ShouldOmitEmpty sf [""; tag].

(** The value of [sf] is empty in every record of [vs]. *)
Definition emptyInAll (vs : list value) (sf : structField) : bool :=
  forallb (fun v => isEmptyValue (fieldValue v (Name sf))) vs.

Definition dropped (tag : string) (vs : list value) (sf : structField) : bool :=
  omitEmptyApplies sf tag && emptyInAll vs sf.

(** The number of records of [vs] whose value for [sf] is empty and may be
    omitted: the [nilCnt] of the field. *)
Definition nilCount (tag : string) (vs : list value) (sf : structField) : nat :=
  length (List.filter
            (fun v => isEmptyValue (fieldValue v (Name sf)) && omitEmptyApplies sf tag) vs).

(** [v] is a struct Value of type [st]. *)
Definition isStructOf (st : StructType) (v : value) : Prop :=
  exists fields, v = VStruct st fields.

(** The fields of the write view whose column stays in the statement. *)
Definition keptFields (tag : string) (vs : list value) (forWrite : list structField)
    : list structField :=
  List.filter (fun sf => negb (dropped tag vs sf)) forWrite.

(** What a record puts into the column of [sf]: its dereferenced value, and
    nil when dereferencing ends in the zero Value. *)
Definition cellOf (v : value) (sf : structField) : iface :=
  let val := dereferencedValue (fieldValue v (Name sf)) in
  if IsValid val then Some val else nil.

(** The dereferenced record has the bound type of [s]. *)
Definition hasBoundType (s : Struct) (item : iface) : bool :=
  match Value_Type (dereferencedValue (ValueOf item)) with
  | Ok t => bool_decide (Some t = Struct_structType s)
  | Panic _ => false
  end.

(** The dereferenced record is a Value at all (not nil, not a nil pointer). *)
Definition isRecord (item : iface) : bool :=
  IsValid (dereferencedValue (ValueOf item)).

(** An update includes the field [sf] of a record with fields [fields]. *)
Definition included (tag : string) (fields : list (string * value)) (sf : structField) : bool :=
  negb (isEmptyValue (lookupField fields (Name sf)) && omitEmptyApplies sf tag).

(** The assignment an update makes for an included field. *)
Definition assignmentOf (s : Struct) (fields : list (string * value)) (sf : structField)
    : result assignment :=
  let val := lookupField fields (Name sf) in
  data ← Value_Interface (if isEmptyValue val then val else dereferencedValue val);
  Ok (Quote sf (Struct_Flavor s), data).

(** The reading of "a retained column gets a null placeholder from every
    record whose value for it is empty", for one insert. *)
Definition nullPlaceholderClaim (s : Struct) (table tag : string) (items : list iface) : Prop :=
  forall parser tagged vs ib,
    Struct_structFieldsParser s = Some parser ->
    Tag (parser ()) tag = Some tagged ->
    matchingValues s items = Ok vs ->
    InsertIntoForTag s table tag items = Ok ib ->
    forall i j v sf row,
      vs !! i = Some v ->
      keptFields tag vs (ForWrite tagged) !! j = Some sf ->
      emptyInAll vs sf = false ->
      isEmptyValue (fieldValue v (Name sf)) = true ->
      ib_values ib !! i = Some row ->
      row !! j = Some nil.

(** The reading of "with no surviving record the scaffold is column-only",
    for one insert. *)
Definition columnOnlyClaim (s : Struct) (table tag : string) (items : list iface) : Prop :=
  forall parser tagged,
    Struct_structFieldsParser s = Some parser ->
    Tag (parser ()) tag = Some tagged ->
    matchingValues s items = Ok [] ->
    exists ib,
      InsertIntoForTag s table tag items = Ok ib
      /\ ib_cols ib = (fun sf => Quote sf (Struct_Flavor s)) <$> ForWrite tagged
      /\ ib_values ib = [].

(** The reading of "the configuration method returns a new instance carrying
    the new setting", for one call. *)
Definition newInstanceClaim (h : heap) (s : ptr) (cfg : config) : Prop :=
  exists c h' r c',
    h !! s = Some c
    /\ configure h s cfg = Ok (h', r)
    /\ h !! r = None
    /\ h' !! r = Some c'
    /\ configured cfg c c'.

(** The reading of "an operation on the dummy mapper returns an empty
    result", for [ColumnsForTag]. *)
Definition dummyNoOpClaim (h : heap) (structValue : iface) (tag : string) : Prop :=
  exists h' s, NewStruct h structValue = Ok (h', s)
               /\ call h' s (fun c => ColumnsForTag c tag) = Ok [].

(** *** Vocabulary of further statements *)

(** A mapper has a field parser exactly when it has a bound type, and the
    bound type is a struct type. *)
Definition consistent (c : Struct) : Prop :=
  match Struct_structType c, Struct_structFieldsParser c with
  | None, None => True
  | Some t, Some _ => Type_Kind t = reflect.Struct
  | _, _ => False
  end.

(** Two records that dereference to the same Value. *)
Definition sameRecord (a b : iface) : Prop :=
  dereferencedValue (ValueOf a) = dereferencedValue (ValueOf b).

End Mapper.

(** ** A sample dialect and the sample type of the spec's end-to-end case *)

Definition sampleQuote (sf : structField) (flavor : nat) : string :=
  if IsQuoted sf then "`" +:+ Alias sf +:+ "`" else Alias sf.

Definition sampleExternals : Externals :=
  {| Flavor := nat;
     zeroFlavor := 0;
     DefaultFlavor := 1;
     Quote := sampleQuote;
     NameForSelect := sampleQuote;
     DefaultFieldMapper := fun name => name;
     Cols := fun tagged cols =>
               mapM (fun col => find (fun sf => String.eqb (Alias sf) col) (ForRead tagged)) cols |}.

(** The default dialect of the sample. *)
Definition sampleFlavor : @Flavor sampleExternals := 1.

Definition plainTag : StructTag :=
  {| tagDB := None; tagFieldTag := []; tagWithQuote := false;
     tagOmitEmpty := None; tagFieldAs := None |}.

(** [struct { ID int `db:"id"`; Name string `db:"name" fieldopt:"omitempty"` }] *)
Definition userType : StructType :=
  {| typeName := "User";
     typeFields :=
       [ {| fieldName := "ID"; fieldPkgPath := "";
            fieldTag := {| tagDB := Some "id"; tagFieldTag := []; tagWithQuote := false;
                           tagOmitEmpty := None; tagFieldAs := None |} |};
         {| fieldName := "Name"; fieldPkgPath := "";
            fieldTag := {| tagDB := Some "name"; tagFieldTag := []; tagWithQuote := false;
                           tagOmitEmpty := Some []; tagFieldAs := None |} |} ] |}.

Definition user (id : Z) (name : string) : value :=
  VStruct userType [("ID", VInt id); ("Name", VString name)].

(** [struct { A int; b int; C string }], without any tag. *)
Definition plainType : StructType :=
  {| typeName := "Plain";
     typeFields :=
       [ {| fieldName := "A"; fieldPkgPath := ""; fieldTag := plainTag |};
         {| fieldName := "b"; fieldPkgPath := "sample"; fieldTag := plainTag |};
         {| fieldName := "C"; fieldPkgPath := ""; fieldTag := plainTag |} ] |}.

(** The [Struct] that [NewStruct] makes for a struct type. *)
Definition boundStruct (E : Externals) (st : StructType) : @Struct E :=
  {| Struct_Flavor := DefaultFlavor;
     Struct_structType := Some (TStruct st);
     Struct_structFieldsParser := Some (makeDefaultFieldsParser (TStruct st));
     Struct_structTag := "" |}.

Definition userStruct : @Struct sampleExternals := boundStruct sampleExternals userType.

(** [struct { ID int `db:"id" fieldtag:"new,edit"`; Note *string `fieldtag:"edit"` }] *)
Definition taggedType : StructType :=
  {| typeName := "Tagged";
     typeFields :=
       [ {| fieldName := "ID"; fieldPkgPath := "";
            fieldTag := {| tagDB := Some "id"; tagFieldTag := ["new"; "edit"];
                           tagWithQuote := false; tagOmitEmpty := None;
                           tagFieldAs := None |} |};
         {| fieldName := "Note"; fieldPkgPath := "";
            fieldTag := {| tagDB := None; tagFieldTag := ["edit"];
                           tagWithQuote := false; tagOmitEmpty := None;
                           tagFieldAs := None |} |} ] |}.

Definition tagged (id : Z) (note : value) : value :=
  VStruct taggedType [("ID", VInt id); ("Note", note)].

Definition taggedStruct : @Struct sampleExternals := boundStruct sampleExternals taggedType.

(** * Facts *)

(** ** Loops *)

Lemma foldl_snoc_fmap {A B : Type} (f : A -> B) (l : list A) (acc : list B) :
  foldl (fun acc x => acc ++ [f x]) acc l = acc ++ (f <$> l).
Proof.
  revert acc. induction l as [|x l IH]; intros acc; simpl.
  - by rewrite app_nil_r.
  - rewrite IH. by rewrite <- app_assoc.
Qed.

Lemma index_fmap_middle {A B : Type} (f : A -> B) (pre suf : list A) (x : A) :
  index (f <$> (pre ++ x :: suf)) (length pre) = Ok (f x).
Proof.
  unfold index. rewrite list_lookup_fmap, list_lookup_middle; done.
Qed.

Lemma length_filter_all {A : Type} (P : A -> bool) (l : list A) :
  length (List.filter P l) = length l <-> forallb P l = true.
Proof.
  induction l as [|x l IH]; simpl; [done|].
  pose proof (List.filter_length_le P l) as Hle.
  destruct (P x); simpl.
  - rewrite <- IH. lia.
  - split; [lia | done].
Qed.

Lemma appendAt_middle (pre rows : list (list iface)) (row : list iface) (cell : iface) :
  appendAt (pre ++ row :: rows) (length pre) cell = (pre ++ [row ++ [cell]]) ++ rows.
Proof.
  unfold appendAt.
  replace (length pre) with (length pre + 0) by lia.
  rewrite alter_app_r. simpl. by rewrite <- app_assoc.
Qed.

Lemma length_snoc_S {A : Type} (l : list A) (x : A) : S (length l) = length (l ++ [x]).
Proof. rewrite length_app. simpl. lia. Qed.

(** Appending one cell to every row, row by row: the rows before the loop
    position are [pre]. *)
Lemma foldlM_appendAt {A : Type} (g : A -> result iface) (xs : list A) :
  forall (cells : list iface) (pre rows : list (list iface)),
    Forall2 (fun x cell => g x = Ok cell) xs cells ->
    length rows = length xs ->
    foldlM (fun rows '(n, x) => cell ← g x; Ok (appendAt rows n cell))
           (pre ++ rows) (zip (seq (length pre) (length xs)) xs)
    = Ok (pre ++ zip_with (fun row cell => row ++ [cell]) rows cells).
Proof.
  induction xs as [|x xs IH]; intros cells pre rows Hg Hlen.
  - destruct rows; [|done]. inversion Hg. done.
  - destruct rows as [|row rows]; [done|].
    inversion Hg as [|? cell ? cells' Hx Hxs]; subst. simpl in *.
    rewrite Hx. simpl. rewrite appendAt_middle.
    rewrite (length_snoc_S pre (row ++ [cell])).
    rewrite (IH cells' _ rows Hxs) by lia.
    by rewrite <- app_assoc.
Qed.

Section Facts.

Context `{Externals}.

(** ** Select and columns *)

(** C7: for a mapper with a field parser, [SelectFromForTag] selects [*] when
    the view of the tag is absent, and otherwise exactly [table.<name>] for
    every field of the read view, in view order; [SelectFrom] is the same
    with the default tag. *)
Theorem SelectFromForTag_columns (s : Struct) (parser : structFieldsParser)
    (table tag : string) :
  Struct_structFieldsParser s = Some parser ->
  SelectFromForTag s table tag
  = Ok {| sb_flavor := Struct_Flavor s;
          sb_tables := [table];
          sb_selectCols :=
            match Tag (parser ()) tag with
            | None => ["*"]
            | Some tagged =>
                (fun sf => table +:+ "." +:+ NameForSelect sf (Struct_Flavor s))
                  <$> ForRead tagged
            end |}
  /\ SelectFrom s table = SelectFromForTag s table (Struct_structTag s).
Proof.
  intros Hparser. split; [|done].
  unfold SelectFromForTag, callParser. rewrite Hparser. simpl.
  destruct (Tag (parser ()) tag) as [tagged|]; [|done].
  by rewrite foldl_snoc_fmap.
Qed.

Lemma resolve_plain (mapper : FieldMapperFunc) (st : StructType) :
  Forall (fun f => fieldTag f = plainTag) (typeFields st) ->
  Forall (fun sf => Tags sf = []) (resolve mapper st)
  /\ Alias <$> resolve mapper st
     = mapper <$> (fieldName <$> List.filter exported (typeFields st)).
Proof.
  unfold resolve. generalize (typeFields st) as fields.
  induction 1 as [|f fields Hf Hfields [IH1 IH2]]; simpl; [done|].
  destruct (exported f); simpl; [|done].
  split.
  - constructor; [|done]. unfold parseField. simpl. by rewrite Hf.
  - rewrite Hf. simpl. f_equal. exact IH2.
Qed.

Lemma forTag_untagged (fields : list structField) (tag : string) :
  Forall (fun sf => Tags sf = []) fields ->
  forTag fields tag = Some {| ForRead := fields; ForWrite := fields |}.
Proof.
  intros Hall. unfold forTag.
  replace (forallb _ fields) with true; [done|].
  symmetry. apply forallb_forall. intros sf Hin.
  apply bool_decide_eq_true. rewrite Forall_forall in Hall. apply Hall.
  by apply list_elem_of_In.
Qed.

Lemma forTag_sublist (fields : list structField) (tag : string)
    (view : structTaggedFields) :
  forTag fields tag = Some view -> ForWrite view `sublist_of` fields.
Proof.
  unfold forTag. destruct (forallb _ fields).
  - by intros [= <-].
  - assert (Hsub : List.filter (fun sf => bool_decide (tag ∈ Tags sf)) fields
                   `sublist_of` fields).
    { clear. induction fields as [|sf fields IH]; simpl; [done|].
      destruct (bool_decide (tag ∈ Tags sf)); by constructor. }
    destruct (List.filter _ fields); [done|]. by intros [= <-].
Qed.

(** C8: for a mapper with a field parser, [ColumnsForTag] returns the aliases
    of the write view in view order, and the empty sequence when the view is
    absent; [Columns] is the same with the default tag.  The write view of a
    mapper that [NewStruct] makes keeps the fields in declaration order, and
    for a struct type none of whose fields has a tag the columns of the empty
    tag are the default-mapped names of the exported fields, in declaration
    order. *)
Theorem ColumnsForTag_aliases :
  (forall (s : Struct) (parser : structFieldsParser) (tag : string),
     Struct_structFieldsParser s = Some parser ->
     ColumnsForTag s tag
     = Ok (match Tag (parser ()) tag with
           | None => []
           | Some tagged => Alias <$> ForWrite tagged
           end)
     /\ Columns s = ColumnsForTag s (Struct_structTag s))
  /\ (forall (h : heap) (structValue : iface) (st : StructType) (tag : string),
        dereferencedType (TypeOf structValue) = Ok (TStruct st) ->
        exists h' s c view,
          NewStruct h structValue = Ok (h', s)
          /\ h' !! s = Some c
          /\ ColumnsForTag c tag = Ok (Alias <$> view)
          /\ view `sublist_of` resolve DefaultFieldMapper st)
  /\ (forall (h : heap) (structValue : iface) (st : StructType),
        dereferencedType (TypeOf structValue) = Ok (TStruct st) ->
        Forall (fun f => fieldTag f = plainTag) (typeFields st) ->
        exists h' s c,
          NewStruct h structValue = Ok (h', s)
          /\ h' !! s = Some c
          /\ ColumnsForTag c ""
             = Ok (DefaultFieldMapper
                     <$> (fieldName <$> List.filter exported (typeFields st)))).
Proof.
  split; [|split].
  - intros s parser tag Hparser. split; [|done].
    unfold ColumnsForTag, callParser. rewrite Hparser. simpl.
    destruct (Tag (parser ()) tag) as [tagged|]; [|done].
    by rewrite foldl_snoc_fmap.
  - intros h structValue st tag Ht.
    unfold NewStruct, alloc, heap in *. rewrite Ht. simpl.
    destruct (forTag (resolve DefaultFieldMapper st) tag) as [tagged|] eqn:Hview.
    + eexists _, _, _, (ForWrite tagged). split; [done|]. split.
      * rewrite lookup_app_r by done. by rewrite Nat.sub_diag.
      * split; [|by apply (forTag_sublist _ tag)].
        unfold ColumnsForTag, callParser. simpl. rewrite Hview.
        by rewrite foldl_snoc_fmap.
    + eexists _, _, _, []. split; [done|]. split.
      * rewrite lookup_app_r by done. by rewrite Nat.sub_diag.
      * split; [|apply sublist_nil_l].
        unfold ColumnsForTag, callParser. simpl. by rewrite Hview.
  - intros h structValue st Ht Hplain.
    unfold NewStruct, alloc, heap in *. rewrite Ht. simpl.
    eexists _, _, _. split; [done|]. split.
    + rewrite lookup_app_r by done. by rewrite Nat.sub_diag.
    + unfold ColumnsForTag, callParser. simpl.
      destruct (resolve_plain DefaultFieldMapper st Hplain) as [Htags Halias].
      rewrite (forTag_untagged _ "" Htags). simpl.
      by rewrite foldl_snoc_fmap, Halias.
Qed.

(** ** The dummy mapper *)

Lemma nil_parser_panics (s : Struct) :
  Struct_structFieldsParser s = None ->
  (forall table tag, SelectFromForTag s table tag = Panic NilFuncCall)
  /\ (forall table tag value, UpdateForTag s table tag value = Panic NilFuncCall)
  /\ (forall table tag items, InsertIntoForTag s table tag items = Panic NilFuncCall)
  /\ (forall table tag items, InsertIgnoreIntoForTag s table tag items = Panic NilFuncCall)
  /\ (forall table tag items, ReplaceIntoForTag s table tag items = Panic NilFuncCall)
  /\ (forall tag st, AddrForTag s tag st = Panic NilFuncCall)
  /\ (forall cols st, AddrWithCols s cols st = Panic NilFuncCall)
  /\ (forall tag, ColumnsForTag s tag = Panic NilFuncCall)
  /\ (forall tag value, ValuesForTag s tag value = Panic NilFuncCall).
Proof.
  intros Hnil.
  unfold SelectFromForTag, UpdateForTag, InsertIntoForTag, InsertIgnoreIntoForTag,
    ReplaceIntoForTag, buildColsAndValuesForTag, AddrForTag, AddrWithCols,
    ColumnsForTag, ValuesForTag, callParser.
  rewrite Hnil. simpl. repeat split.
Qed.

(** C5: [NewStruct] of a non-struct value returns the dummy mapper
    [emptyStruct], whose field parser is the nil func: [ColumnsForTag] on it
    panics instead of returning the empty result, and so does every other
    method that starts by calling the parser. *)
Theorem dummy_mapper_panics :
  NewStruct initHeap (Some (VInt 0)) = Ok (initHeap, emptyStructAddr)
  /\ call initHeap emptyStructAddr (fun c => ColumnsForTag c "") = Panic NilFuncCall
  /\ ~ dummyNoOpClaim initHeap (Some (VInt 0)) ""
  /\ (forall table tag, SelectFromForTag emptyStruct table tag = Panic NilFuncCall)
  /\ (forall table tag value, UpdateForTag emptyStruct table tag value = Panic NilFuncCall)
  /\ (forall table tag items, InsertIntoForTag emptyStruct table tag items = Panic NilFuncCall)
  /\ (forall tag st, AddrForTag emptyStruct tag st = Panic NilFuncCall)
  /\ (forall tag value, ValuesForTag emptyStruct tag value = Panic NilFuncCall).
Proof.
  destruct (nil_parser_panics emptyStruct eq_refl)
    as (Hsel & Hupd & Hins & _ & _ & Haddr & _ & Hcols & Hvals).
  repeat split; try done.
  intros (h' & s & Hnew & Hcall).
  cbv in Hnew. injection Hnew as <- <-. cbv in Hcall. discriminate.
Qed.

(** ** Configuration methods *)

Lemma alloc_frame (h : heap) (c : Struct) (p : ptr) (c0 : Struct) :
  h !! p = Some c0 -> (h ++ [c]) !! p = Some c0.
Proof. unfold heap in *. intros Hp. by apply lookup_app_l_Some. Qed.

Lemma alloc_fresh (h : heap) : h !! length h = None.
Proof. unfold heap in *. by apply lookup_ge_None. Qed.

Lemma alloc_holds (h : heap) (c : Struct) : (h ++ [c]) !! length h = Some c.
Proof. unfold heap in *. rewrite lookup_app_r by done. by rewrite Nat.sub_diag. Qed.

Local Ltac fresh_copy :=
  split; [apply alloc_fresh|]; eexists; split; [apply alloc_holds|]; done.

(** C9, amended: on a valid receiver every configuration method returns
    normally and leaves every cell of the store, the receiver's included, as
    it was.  [For] and [WithTag] always, and [WithFieldMapper] on a mapper
    with a bound type, return a fresh cell that holds a copy of the receiver
    with the new setting; [WithFieldMapper] on a mapper without bound type
    returns the address of the package's [emptyStruct] and allocates
    nothing. *)
Theorem configure_copies (h : heap) (s : ptr) (c : Struct) (cfg : config) :
  h !! s = Some c ->
  exists h' r,
    configure h s cfg = Ok (h', r)
    /\ h' !! s = Some c
    /\ (forall p c0, h !! p = Some c0 -> h' !! p = Some c0)
    /\ match cfg, Struct_structType c with
       | ConfWithFieldMapper _, None => h' = h /\ r = emptyStructAddr
       | _, _ => h !! r = None /\ exists c', h' !! r = Some c' /\ configured cfg c c'
       end.
Proof.
  intros Hs.
  destruct cfg as [flavor|mapper|tag]; simpl;
    unfold For, WithFieldMapper, WithTag, load, alloc; rewrite Hs; simpl.
  - eexists _, _. split; [done|]. split; [by apply alloc_frame|].
    split; [intros; by apply alloc_frame|].
    fresh_copy.
  - destruct (Struct_structType c) as [t|] eqn:Ht.
    + eexists _, _. split; [done|]. split; [by apply alloc_frame|].
      split; [intros; by apply alloc_frame|].
      split; [apply alloc_fresh|]. eexists. split; [apply alloc_holds|].
      simpl. eauto 10.
    + eexists _, _. split; [done|]. done.
  - eexists _, _. split; [done|]. split; [by apply alloc_frame|].
    split; [intros; by apply alloc_frame|].
    fresh_copy.
Qed.

(** ** The three insert verbs *)

Lemma result_fmap_compose {A B C : Type} (f : A -> B) (g : B -> C) (m : result A) :
  g <$> (f <$> m) = (fun a => g (f a)) <$> m.
Proof. by destruct m. Qed.

Lemma foldl_Values_withVerb (verb : insertVerb) (table : string)
    (rows : list (list iface)) (ib : InsertBuilder) :
  foldl InsertBuilder_Values (withVerb verb table ib) rows
  = withVerb verb table (foldl InsertBuilder_Values ib rows).
Proof.
  revert ib. induction rows as [|row rows IH]; intros ib; simpl; [done|].
  rewrite <- IH. done.
Qed.

(** The verb and table set on the builder beforehand pass through
    [buildColsAndValuesForTag] untouched. *)
Lemma buildColsAndValuesForTag_withVerb (verb : insertVerb) (table : string)
    (s : Struct) (ib : InsertBuilder) (tag : string) (items : list iface) :
  buildColsAndValuesForTag s (withVerb verb table ib) tag items
  = withVerb verb table <$> buildColsAndValuesForTag s ib tag items.
Proof.
  unfold buildColsAndValuesForTag.
  destruct (callParser s) as [sfs|]; simpl; [|done].
  destruct (Tag sfs tag) as [tagged|]; [|done].
  destruct (matchingValues s items) as [vs|]; simpl; [|done].
  destruct (Nat.eqb (length vs) 0); [done|].
  destruct (gatherColumns s tag vs (ForWrite tagged)) as [[[cols values] nilCols]|];
    simpl; [|done].
  destruct (filterColumns cols values nilCols) as [[filteredCols filteredValues]|];
    simpl; [|done].
  f_equal. apply (foldl_Values_withVerb verb table filteredValues (InsertBuilder_Cols ib filteredCols)).
Qed.

(** C10: the three insert variants build the same scaffold up to the verb:
    each is the result of [buildColsAndValuesForTag] on a fresh builder with
    its own verb set, so column lists and value rows coincide (and a panic
    of one is a panic of all); each plain variant is its [ForTag] variant at
    the mapper's default tag. *)
Theorem insert_variants_agree (s : Struct) (table tag : string) (items : list iface) :
  let scaffold :=
    buildColsAndValuesForTag s (NewInsertBuilder (Struct_Flavor s)) tag items in
  InsertIntoForTag s table tag items = withVerb verbInsert table <$> scaffold
  /\ InsertIgnoreIntoForTag s table tag items = withVerb verbInsertIgnore table <$> scaffold
  /\ ReplaceIntoForTag s table tag items = withVerb verbReplace table <$> scaffold
  /\ ib_cols <$> InsertIgnoreIntoForTag s table tag items
     = ib_cols <$> InsertIntoForTag s table tag items
  /\ ib_cols <$> ReplaceIntoForTag s table tag items
     = ib_cols <$> InsertIntoForTag s table tag items
  /\ ib_values <$> InsertIgnoreIntoForTag s table tag items
     = ib_values <$> InsertIntoForTag s table tag items
  /\ ib_values <$> ReplaceIntoForTag s table tag items
     = ib_values <$> InsertIntoForTag s table tag items
  /\ InsertInto s table items = InsertIntoForTag s table (Struct_structTag s) items
  /\ InsertIgnoreInto s table items
     = InsertIgnoreIntoForTag s table (Struct_structTag s) items
  /\ ReplaceInto s table items = ReplaceIntoForTag s table (Struct_structTag s) items.
Proof.
  intros scaffold.
  assert (Hins : InsertIntoForTag s table tag items
                 = withVerb verbInsert table <$> scaffold)
    by apply buildColsAndValuesForTag_withVerb.
  assert (Hign : InsertIgnoreIntoForTag s table tag items
                 = withVerb verbInsertIgnore table <$> scaffold)
    by apply buildColsAndValuesForTag_withVerb.
  assert (Hrep : ReplaceIntoForTag s table tag items
                 = withVerb verbReplace table <$> scaffold)
    by apply buildColsAndValuesForTag_withVerb.
  rewrite Hins, Hign, Hrep, !result_fmap_compose.
  repeat split.
Qed.

(** ** Update *)

Lemma assignField_struct (s : Struct) (ub : UpdateBuilder) (tag : string)
    (st : StructType) (fields : list (string * value)) (assignments : list assignment)
    (sf : structField) :
  assignField s ub tag (VStruct st fields) assignments sf
  = if included tag fields sf
    then (fun a => assignments ++ [a]) <$> assignmentOf s fields sf
    else Ok assignments.
Proof.
  unfold assignField, included, assignmentOf, omitEmptyApplies. simpl.
  destruct (isEmptyValue (lookupField fields (Name sf)) && _); simpl; [done|].
  by destruct (Value_Interface _).
Qed.

Lemma foldlM_assignField (s : Struct) (ub : UpdateBuilder) (tag : string)
    (st : StructType) (fields : list (string * value)) (forWrite : list structField) :
  forall assignments,
    foldlM (assignField s ub tag (VStruct st fields)) assignments forWrite
    = (fun l => assignments ++ l)
        <$> mapM (assignmentOf s fields) (List.filter (included tag fields) forWrite).
Proof.
  induction forWrite as [|sf forWrite IH]; intros assignments.
  - simpl. by rewrite app_nil_r.
  - cbn [foldlM List.filter]. rewrite assignField_struct.
    destruct (included tag fields sf); cbn [mbind result_bind]; [|apply IH].
    cbn [mapM]. destruct (assignmentOf s fields sf) as [a|]; simpl; [|done].
    rewrite IH. destruct (mapM _ _) as [l|]; simpl; [|done].
    by rewrite <- app_assoc.
Qed.

Lemma omitEmptyApplies_iff (sf : structField) (tag : string) :
  omitEmptyApplies sf tag = true <-> "" ∈ omitEmptyTags sf \/ tag ∈ omitEmptyTags sf.
Proof.
  unfold omitEmptyApplies, ShouldOmitEmpty. simpl.
  rewrite orb_false_r, orb_true_iff, !bool_decide_eq_true. done.
Qed.

(** For a mapper with a field parser and bound struct type, a tag with a
    view and a record of the bound type, [UpdateForTag] makes one assignment
    for each field of the write view, in view order, except those whose value
    is empty while their omit-empty option applies to the tag (the option
    without parameter applies to every tag); an included field that is not
    empty is assigned its dereferenced value, an included empty one its
    value.  The call panics exactly when such a value has no interface
    value. *)
Theorem UpdateForTag_assignments (s : Struct) (parser : structFieldsParser)
    (tagged : structTaggedFields) (st : StructType) (fields : list (string * value))
    (table tag : string) (value : iface) :
  Struct_structFieldsParser s = Some parser ->
  Tag (parser ()) tag = Some tagged ->
  Struct_structType s = Some (TStruct st) ->
  dereferencedValue (ValueOf value) = VStruct st fields ->
  UpdateForTag s table tag value
  = (fun assignments =>
       {| ub_flavor := Struct_Flavor s; ub_table := table; ub_assignments := assignments |})
      <$> mapM (assignmentOf s fields) (List.filter (included tag fields) (ForWrite tagged))
  /\ (forall sf,
        included tag fields sf = false
        <-> isEmptyValue (lookupField fields (Name sf)) = true
            /\ ("" ∈ omitEmptyTags sf \/ tag ∈ omitEmptyTags sf))
  /\ (forall sf,
        assignmentOf s fields sf
        = (fun data => (Quote sf (Struct_Flavor s), data))
            <$> Value_Interface
                  (if isEmptyValue (lookupField fields (Name sf))
                   then lookupField fields (Name sf)
                   else dereferencedValue (lookupField fields (Name sf))))
  /\ Update s table value = UpdateForTag s table (Struct_structTag s) value.
Proof.
  intros Hparser Htag Htype Hvalue. split; [|split; [|split]].
  - unfold UpdateForTag, callParser. rewrite Hparser. simpl.
    rewrite Htag, Hvalue, Htype. simpl.
    rewrite bool_decide_eq_false_2 by (intros Hne; by apply Hne).
    rewrite foldlM_assignField. by destruct (mapM _ _).
  - intros sf. unfold included.
    rewrite negb_false_iff, andb_true_iff, omitEmptyApplies_iff. tauto.
  - intros sf. unfold assignmentOf. by destruct (Value_Interface _).
  - done.
Qed.

(** ** Dereferenced values *)

Lemma dereferencedValue_direct (v : value) :
  Value_Kind (dereferencedValue v) <> reflect.Ptr
  /\ Value_Kind (dereferencedValue v) <> reflect.Interface.
Proof.
  induction v; simpl; try done. by destruct k.
Qed.

Lemma Value_Interface_dereferenced (v : value) :
  IsValid (dereferencedValue v) = true ->
  Value_Interface (dereferencedValue v) = Ok (Some (dereferencedValue v)).
Proof.
  pose proof (dereferencedValue_direct v) as [Hptr Hiface].
  by destruct (dereferencedValue v).
Qed.

Lemma Value_Type_dereferenced (v : value) :
  match Value_Type (dereferencedValue v) with
  | Ok _ => IsValid (dereferencedValue v) = true
  | Panic p => IsValid (dereferencedValue v) = false /\ p = ZeroValueType
  end.
Proof.
  pose proof (dereferencedValue_direct v) as [Hptr Hiface].
  by destruct (dereferencedValue v).
Qed.

Lemma Value_Type_struct (v : value) (st : StructType) :
  Value_Type v = Ok (TStruct st) -> isStructOf st v.
Proof.
  destruct v; simpl; try done.
  - by destruct k.
  - by destruct (Value_Type v).
  - intros [= ->]. by eexists.
Qed.

Lemma FieldByName_struct (st : StructType) (v : value) (name : string) :
  isStructOf st v -> FieldByName v name = Ok (fieldValue v name).
Proof. by intros [fields ->]. Qed.

(** ** The records that survive the type filter *)

Lemma foldlM_matchingValues (s : Struct) (items : list iface) :
  forall vs,
    foldlM (fun vs item =>
              let v := dereferencedValue (ValueOf item) in
              t ← Value_Type v;
              Ok (if bool_decide (Some t = Struct_structType s) then vs ++ [v] else vs))
           vs items
    = if forallb isRecord items
      then Ok (vs ++ ((fun item => dereferencedValue (ValueOf item))
                        <$> List.filter (hasBoundType s) items))
      else Panic ZeroValueType.
Proof.
  induction items as [|item items IH]; intros vs; cbn [foldlM forallb List.filter].
  - simpl. by rewrite app_nil_r.
  - unfold isRecord at 1, hasBoundType at 1.
    pose proof (Value_Type_dereferenced (ValueOf item)) as Hty.
    destruct (Value_Type (dereferencedValue (ValueOf item))) as [t|p]; simpl.
    + rewrite Hty, IH. simpl.
      destruct (forallb isRecord items); [|done].
      destruct (bool_decide (Some t = Struct_structType s)); simpl; [|done].
      by rewrite <- app_assoc.
    + destruct Hty as [-> ->]. done.
Qed.

(** The type filter keeps, in order, the records of the bound type; it
    panics when some record is nil or a nil pointer, which has no type. *)
Lemma matchingValues_filter (s : Struct) (items : list iface) :
  matchingValues s items
  = if forallb isRecord items
    then Ok ((fun item => dereferencedValue (ValueOf item))
               <$> List.filter (hasBoundType s) items)
    else Panic ZeroValueType.
Proof. apply (foldlM_matchingValues s items []). Qed.

Lemma matchingValues_structs (s : Struct) (st : StructType) (items : list iface)
    (vs : list value) :
  Struct_structType s = Some (TStruct st) ->
  matchingValues s items = Ok vs ->
  Forall (isStructOf st) vs.
Proof.
  intros Htype. rewrite matchingValues_filter.
  destruct (forallb isRecord items); [|done]. intros [= <-].
  apply Forall_fmap, Forall_forall. intros item Hin.
  apply list_elem_of_In, filter_In in Hin as [_ Hbound].
  unfold hasBoundType in Hbound. simpl.
  destruct (Value_Type (dereferencedValue (ValueOf item))) as [t|] eqn:Ht; [|done].
  apply bool_decide_eq_true in Hbound. rewrite Htype in Hbound.
  injection Hbound as ->. by apply Value_Type_struct.
Qed.

(** ** Gathering the columns *)

Lemma gatherCell_struct (tag : string) (sf : structField) (st : StructType)
    (values : list (list iface)) (nilCnt i : nat) (v : value) :
  isStructOf st v ->
  gatherCell (Name sf) (ShouldOmitEmpty sf [""; tag]) (values, nilCnt) (i, v)
  = Ok (appendAt values i (cellOf v sf),
        if isEmptyValue (fieldValue v (Name sf)) && omitEmptyApplies sf tag
        then S nilCnt else nilCnt).
Proof.
  intros Hv. unfold gatherCell, cellOf, omitEmptyApplies.
  rewrite (FieldByName_struct st) by done. simpl.
  destruct (IsValid (dereferencedValue (fieldValue v (Name sf)))) eqn:Hvalid; [|done].
  by rewrite Value_Interface_dereferenced.
Qed.

Lemma foldlM_gatherCell (tag : string) (sf : structField) (st : StructType)
    (vs : list value) :
  forall (pre rows : list (list iface)) (nilCnt : nat),
    Forall (isStructOf st) vs ->
    length rows = length vs ->
    foldlM (gatherCell (Name sf) (ShouldOmitEmpty sf [""; tag]))
           (pre ++ rows, nilCnt) (zip (seq (length pre) (length vs)) vs)
    = Ok (pre ++ zip_with (fun row v => row ++ [cellOf v sf]) rows vs,
          nilCnt + nilCount tag vs sf).
Proof.
  unfold nilCount.
  induction vs as [|v vs IH]; intros pre rows nilCnt Hvs Hlen.
  - destruct rows; [|done]. simpl. by rewrite Nat.add_0_r.
  - destruct rows as [|row rows]; [done|].
    inversion Hvs as [|? ? Hv Hvs']; subst.
    cbn [length seq zip_with foldlM List.filter].
    rewrite (gatherCell_struct tag sf st) by done. cbn [mbind result_bind].
    rewrite appendAt_middle, (length_snoc_S pre (row ++ [cellOf v sf])).
    rewrite IH by (simpl in Hlen; done || lia).
    rewrite <- app_assoc. simpl. f_equal. f_equal.
    destruct (isEmptyValue (fieldValue v (Name sf)) && omitEmptyApplies sf tag);
      simpl; lia.
Qed.

Lemma gatherColumn_rows (tag : string) (sf : structField) (st : StructType)
    (vs : list value) (done_ : list structField) :
  Forall (isStructOf st) vs ->
  gatherColumn tag sf vs ((fun v => (cellOf v) <$> done_) <$> vs)
  = Ok ((fun v => (cellOf v) <$> (done_ ++ [sf])) <$> vs, nilCount tag vs sf).
Proof.
  intros Hvs. unfold gatherColumn, enumerate.
  pose proof (foldlM_gatherCell tag sf st vs []
                ((fun v => (cellOf v) <$> done_) <$> vs) 0 Hvs) as Hloop.
  cbn [app length] in Hloop. rewrite Hloop by apply length_fmap.
  simpl. f_equal. f_equal.
  rewrite zip_with_fmap_l, zip_with_diag.
  apply list_fmap_ext. intros _ v _. by rewrite fmap_app.
Qed.

Lemma gatherField_rows (s : Struct) (tag : string) (st : StructType)
    (vs : list value) (done_ : list structField) (sf : structField) :
  Forall (isStructOf st) vs ->
  gatherField s tag vs
    ((fun sf => Quote sf (Struct_Flavor s)) <$> done_,
     (fun v => (cellOf v) <$> done_) <$> vs,
     nilCount tag vs <$> done_)
    sf
  = Ok ((fun sf => Quote sf (Struct_Flavor s)) <$> (done_ ++ [sf]),
        (fun v => (cellOf v) <$> (done_ ++ [sf])) <$> vs,
        nilCount tag vs <$> (done_ ++ [sf])).
Proof.
  intros Hvs. unfold gatherField.
  rewrite (gatherColumn_rows tag sf st) by done. simpl.
  by rewrite !fmap_app.
Qed.

Lemma foldlM_gatherField (s : Struct) (tag : string) (st : StructType)
    (vs : list value) (forWrite : list structField) :
  Forall (isStructOf st) vs ->
  forall done_,
    foldlM (gatherField s tag vs)
           ((fun sf => Quote sf (Struct_Flavor s)) <$> done_,
            (fun v => (cellOf v) <$> done_) <$> vs,
            nilCount tag vs <$> done_)
           forWrite
    = Ok ((fun sf => Quote sf (Struct_Flavor s)) <$> (done_ ++ forWrite),
          (fun v => (cellOf v) <$> (done_ ++ forWrite)) <$> vs,
          nilCount tag vs <$> (done_ ++ forWrite)).
Proof.
  intros Hvs. induction forWrite as [|sf forWrite IH]; intros done_.
  - simpl. by rewrite app_nil_r.
  - cbn [foldlM]. rewrite (gatherField_rows s tag st) by done.
    cbn [mbind result_bind]. rewrite IH.
    by rewrite <- !app_assoc.
Qed.

Lemma gatherColumns_rows (s : Struct) (tag : string) (st : StructType)
    (vs : list value) (forWrite : list structField) :
  Forall (isStructOf st) vs ->
  gatherColumns s tag vs forWrite
  = Ok ((fun sf => Quote sf (Struct_Flavor s)) <$> forWrite,
        (fun v => (cellOf v) <$> forWrite) <$> vs,
        nilCount tag vs <$> forWrite).
Proof.
  intros Hvs. unfold gatherColumns.
  replace (replicate (length vs) []) with ((fun v => (cellOf v) <$> []) <$> vs).
  - apply (foldlM_gatherField s tag st vs forWrite Hvs []).
  - clear Hvs. induction vs as [|v vs IH]; simpl; [done|]. by rewrite <- IH.
Qed.

(** ** Filtering the columns *)

Lemma foldlM_filterCell (i : nat) (values : list (list iface)) (cells : list iface)
    (rows : list (list iface)) :
  Forall2 (fun value cell => index value i = Ok cell) values cells ->
  length rows = length values ->
  foldlM (filterCell i) rows (enumerate values)
  = Ok (zip_with (fun row cell => row ++ [cell]) rows cells).
Proof.
  intros Hcells Hlen.
  apply (foldlM_appendAt (fun value => index value i) values cells [] rows Hcells Hlen).
Qed.

Lemma filterColumn_middle (s : Struct) (tag : string) (vs : list value)
    (pre suf kept : list structField) (sf : structField) :
  filterColumn ((fun sf => Quote sf (Struct_Flavor s)) <$> (pre ++ sf :: suf))
               ((fun v => (cellOf v) <$> (pre ++ sf :: suf)) <$> vs)
               ((fun sf => Quote sf (Struct_Flavor s)) <$> kept,
                (fun v => (cellOf v) <$> kept) <$> vs)
               (length pre, nilCount tag vs sf)
  = let kept' := if Nat.eqb (nilCount tag vs sf) (length vs) then kept else kept ++ [sf] in
    Ok ((fun sf => Quote sf (Struct_Flavor s)) <$> kept',
        (fun v => (cellOf v) <$> kept') <$> vs).
Proof.
  unfold filterColumn. rewrite length_fmap.
  destruct (Nat.eqb (nilCount tag vs sf) (length vs)); [done|].
  rewrite index_fmap_middle. cbn [mbind result_bind].
  rewrite (foldlM_filterCell _ _ ((fun v => cellOf v sf) <$> vs)).
  - simpl. rewrite fmap_app. f_equal. f_equal.
    rewrite zip_with_fmap_l, zip_with_fmap_r, zip_with_diag.
    apply list_fmap_ext. intros _ v _. by rewrite fmap_app.
  - apply Forall2_fmap, Forall_Forall2_diag, Forall_forall.
    intros v _. apply index_fmap_middle.
  - by rewrite !length_fmap.
Qed.

Lemma foldlM_filterColumn (s : Struct) (tag : string) (vs : list value)
    (forWrite suf : list structField) :
  forall pre,
    forWrite = pre ++ suf ->
    let keep := fun sf => negb (Nat.eqb (nilCount tag vs sf) (length vs)) in
    foldlM (filterColumn ((fun sf => Quote sf (Struct_Flavor s)) <$> forWrite)
                         ((fun v => (cellOf v) <$> forWrite) <$> vs))
           ((fun sf => Quote sf (Struct_Flavor s)) <$> List.filter keep pre,
            (fun v => (cellOf v) <$> List.filter keep pre) <$> vs)
           (zip (seq (length pre) (length suf)) (nilCount tag vs <$> suf))
    = Ok ((fun sf => Quote sf (Struct_Flavor s)) <$> List.filter keep forWrite,
          (fun v => (cellOf v) <$> List.filter keep forWrite) <$> vs).
Proof.
  induction suf as [|sf suf IH]; intros pre Hfw keep.
  - rewrite app_nil_r in Hfw. by subst.
  - subst forWrite keep. cbn [length seq fmap list_fmap zip_with foldlM].
    rewrite filterColumn_middle. cbn [mbind result_bind].
    specialize (IH (pre ++ [sf])).
    rewrite <- app_assoc in IH. specialize (IH eq_refl).
    cbn beta zeta in IH. rewrite List.filter_app in IH. cbn [List.filter] in IH.
    rewrite <- length_snoc_S in IH. rewrite <- IH. cbn beta zeta.
    destruct (Nat.eqb (nilCount tag vs sf) (length vs)); simpl; [|done].
    by rewrite app_nil_r.
Qed.

Lemma filterColumns_kept (s : Struct) (tag : string) (vs : list value)
    (forWrite : list structField) :
  filterColumns ((fun sf => Quote sf (Struct_Flavor s)) <$> forWrite)
                ((fun v => (cellOf v) <$> forWrite) <$> vs)
                (nilCount tag vs <$> forWrite)
  = let keep := fun sf => negb (Nat.eqb (nilCount tag vs sf) (length vs)) in
    Ok ((fun sf => Quote sf (Struct_Flavor s)) <$> List.filter keep forWrite,
        (fun v => (cellOf v) <$> List.filter keep forWrite) <$> vs).
Proof.
  unfold filterColumns, enumerate. rewrite !length_fmap.
  replace (replicate (length vs) []) with ((fun v => (cellOf v) <$> []) <$> vs).
  - apply (foldlM_filterColumn s tag vs forWrite forWrite [] eq_refl).
  - induction vs as [|v vs IH]; simpl; [done|]. by rewrite <- IH.
Qed.

(** With at least one record, the count of a field reaches the number of
    records exactly when the field is dropped. *)
Lemma nilCount_all (tag : string) (vs : list value) (sf : structField) :
  vs <> [] ->
  Nat.eqb (nilCount tag vs sf) (length vs) = dropped tag vs sf.
Proof.
  intros Hvs. unfold nilCount, dropped, emptyInAll.
  destruct (omitEmptyApplies sf tag); simpl.
  - apply eq_true_iff_eq. rewrite Nat.eqb_eq, <- length_filter_all.
    erewrite List.filter_ext; [done|]. intros v. simpl. by rewrite andb_true_r.
  - erewrite List.filter_ext with (g := fun _ => false).
    + replace (List.filter (fun _ => false) vs) with ([] : list value)
        by (clear; induction vs; done).
      destruct vs; done.
    + intros v. apply andb_false_r.
Qed.

(** ** The insert scaffold *)

Lemma foldl_Values (rows : list (list iface)) (ib : InsertBuilder) :
  foldl InsertBuilder_Values ib rows
  = {| ib_flavor := ib_flavor ib; ib_verb := ib_verb ib; ib_table := ib_table ib;
       ib_cols := ib_cols ib; ib_values := ib_values ib ++ rows |}.
Proof.
  revert ib. induction rows as [|row rows IH]; intros ib; simpl.
  - rewrite app_nil_r. by destruct ib.
  - rewrite IH. simpl. by rewrite <- app_assoc.
Qed.

(** What [buildColsAndValuesForTag] sets on the builder when at least one
    record has the bound type. *)
Lemma buildColsAndValuesForTag_rows (s : Struct) (parser : structFieldsParser)
    (tagged : structTaggedFields) (st : StructType) (ib : InsertBuilder)
    (tag : string) (items : list iface) (vs : list value) :
  Struct_structFieldsParser s = Some parser ->
  Tag (parser ()) tag = Some tagged ->
  Struct_structType s = Some (TStruct st) ->
  matchingValues s items = Ok vs ->
  vs <> [] ->
  buildColsAndValuesForTag s ib tag items
  = Ok {| ib_flavor := ib_flavor ib; ib_verb := ib_verb ib; ib_table := ib_table ib;
          ib_cols := (fun sf => Quote sf (Struct_Flavor s))
                       <$> keptFields tag vs (ForWrite tagged);
          ib_values := ib_values ib
                       ++ ((fun v => (cellOf v) <$> keptFields tag vs (ForWrite tagged))
                             <$> vs) |}.
Proof.
  intros Hparser Htag Htype Hvs Hne.
  pose proof (matchingValues_structs s st items vs Htype Hvs) as Hstructs.
  unfold buildColsAndValuesForTag, callParser. rewrite Hparser. simpl.
  rewrite Htag, Hvs. simpl.
  destruct vs as [|v0 vs0] eqn:Heq; [done|]. rewrite <- Heq in *.
  replace (Nat.eqb (length vs) 0) with false by (by rewrite Heq).
  rewrite (gatherColumns_rows s tag st) by done. simpl.
  rewrite filterColumns_kept. simpl.
  rewrite foldl_Values. simpl.
  assert (Hkeep : List.filter
                    (fun sf => negb (Nat.eqb (nilCount tag vs sf) (length vs)))
                    (ForWrite tagged)
                  = keptFields tag vs (ForWrite tagged)).
  { apply List.filter_ext. intros sf. by rewrite nilCount_all. }
  by rewrite Hkeep.
Qed.

Lemma elem_of_keptFields (tag : string) (vs : list value)
    (forWrite : list structField) (sf : structField) :
  sf ∈ keptFields tag vs forWrite
  <-> sf ∈ forWrite
      /\ ~ (omitEmptyApplies sf tag = true
            /\ forall v, v ∈ vs -> isEmptyValue (fieldValue v (Name sf)) = true).
Proof.
  unfold keptFields. rewrite !list_elem_of_In, filter_In, <- !list_elem_of_In.
  unfold dropped, emptyInAll.
  rewrite negb_true_iff, <- not_true_iff_false, andb_true_iff, forallb_forall.
  setoid_rewrite <- list_elem_of_In. done.
Qed.

(** C1: in a batch insert with at least one surviving record, the column
    list set on the builder is the columns of the write view, in view order,
    without exactly those whose field has an omit-empty option that applies
    to the tag and an empty value in every surviving record.  The test looks
    at the field's own values only, and one record with a non-empty value
    keeps the column. *)
Theorem insert_drops_column_iff (s : Struct) (parser : structFieldsParser)
    (tagged : structTaggedFields) (st : StructType) (ib : InsertBuilder)
    (tag : string) (items : list iface) (vs : list value) :
  Struct_structFieldsParser s = Some parser ->
  Tag (parser ()) tag = Some tagged ->
  Struct_structType s = Some (TStruct st) ->
  matchingValues s items = Ok vs ->
  vs <> [] ->
  exists ib',
    buildColsAndValuesForTag s ib tag items = Ok ib'
    /\ ib_cols ib'
       = (fun sf => Quote sf (Struct_Flavor s))
           <$> List.filter (fun sf => negb (omitEmptyApplies sf tag && emptyInAll vs sf))
                           (ForWrite tagged)
    /\ (forall sf,
          sf ∈ ForWrite tagged ->
          (sf ∉ keptFields tag vs (ForWrite tagged)
           <-> omitEmptyApplies sf tag = true
               /\ forall v, v ∈ vs -> isEmptyValue (fieldValue v (Name sf)) = true))
    /\ (forall sf v,
          sf ∈ ForWrite tagged -> v ∈ vs ->
          isEmptyValue (fieldValue v (Name sf)) = false ->
          sf ∈ keptFields tag vs (ForWrite tagged)).
Proof.
  intros Hparser Htag Htype Hvs Hne. eexists. split; [|split; [|split]].
  - by apply (buildColsAndValuesForTag_rows s parser tagged st).
  - done.
  - intros sf Hsf. rewrite elem_of_keptFields. split.
    + intros Hnot.
      destruct (omitEmptyApplies sf tag) eqn:Homit;
        [|exfalso; apply Hnot; split; [done|]; intros [? _]; done].
      split; [done|]. intros v Hv.
      destruct (isEmptyValue (fieldValue v (Name sf))) eqn:Hempty; [done|].
      exfalso. apply Hnot. split; [done|]. intros [_ Hall].
      specialize (Hall v Hv). congruence.
    + intros Hdrop [_ Hkept]. by apply Hkept.
  - intros sf v Hsf Hv Hempty. apply elem_of_keptFields. split; [done|].
    intros [_ Hall]. specialize (Hall v Hv). congruence.
Qed.

Lemma cellOf_nil_iff (v : value) (sf : structField) :
  cellOf v sf = nil <-> dereferencedValue (fieldValue v (Name sf)) = VInvalid.
Proof.
  unfold cellOf, nil.
  destruct (dereferencedValue (fieldValue v (Name sf))); simpl; split; done.
Qed.

(** C2, amended: in a batch insert with at least one surviving record, every
    surviving record contributes one row, which holds for each retained
    column, in order, the dereferenced value of the record's field.  The
    null placeholder stands exactly where dereferencing ends in the zero
    Value (a nil pointer or nil interface); a value that is neither a pointer
    nor an interface, empty or not, is put into the row as it is. *)
Theorem insert_rows_dereferenced (s : Struct) (parser : structFieldsParser)
    (tagged : structTaggedFields) (st : StructType) (ib : InsertBuilder)
    (tag : string) (items : list iface) (vs : list value) :
  Struct_structFieldsParser s = Some parser ->
  Tag (parser ()) tag = Some tagged ->
  Struct_structType s = Some (TStruct st) ->
  matchingValues s items = Ok vs ->
  vs <> [] ->
  exists ib',
    buildColsAndValuesForTag s ib tag items = Ok ib'
    /\ ib_values ib'
       = ib_values ib
         ++ ((fun v => (cellOf v) <$> keptFields tag vs (ForWrite tagged)) <$> vs)
    /\ (forall v sf,
          cellOf v sf = nil <-> dereferencedValue (fieldValue v (Name sf)) = VInvalid)
    /\ (forall v sf,
          dereferencedValue (fieldValue v (Name sf)) <> VInvalid ->
          cellOf v sf = Some (dereferencedValue (fieldValue v (Name sf))))
    /\ (forall v sf,
          Value_Kind (fieldValue v (Name sf)) <> reflect.Ptr ->
          Value_Kind (fieldValue v (Name sf)) <> reflect.Interface ->
          Value_Kind (fieldValue v (Name sf)) <> reflect.Invalid ->
          cellOf v sf = Some (fieldValue v (Name sf))).
Proof.
  intros Hparser Htag Htype Hvs Hne. eexists. split; [|split; [|split; [|split]]].
  - by apply (buildColsAndValuesForTag_rows s parser tagged st).
  - done.
  - apply cellOf_nil_iff.
  - intros v sf. unfold cellOf.
    by destruct (dereferencedValue (fieldValue v (Name sf))).
  - intros v sf. unfold cellOf.
    by destruct (fieldValue v (Name sf)).
Qed.

(** C4, amended: when no record survives the type filter (an empty record
    list included), [buildColsAndValuesForTag] returns the builder as it got
    it: the scaffold carries the verb and the table, and neither a column
    list nor a value row. *)
Theorem insert_without_records (s : Struct) (parser : structFieldsParser)
    (table tag : string) (items : list iface) :
  Struct_structFieldsParser s = Some parser ->
  matchingValues s items = Ok [] ->
  (forall ib, buildColsAndValuesForTag s ib tag items = Ok ib)
  /\ InsertIntoForTag s table tag items
     = Ok {| ib_flavor := Struct_Flavor s; ib_verb := verbInsert; ib_table := table;
             ib_cols := []; ib_values := [] |}
  /\ InsertIgnoreIntoForTag s table tag items
     = Ok {| ib_flavor := Struct_Flavor s; ib_verb := verbInsertIgnore; ib_table := table;
             ib_cols := []; ib_values := [] |}
  /\ ReplaceIntoForTag s table tag items
     = Ok {| ib_flavor := Struct_Flavor s; ib_verb := verbReplace; ib_table := table;
             ib_cols := []; ib_values := [] |}
  /\ matchingValues s [] = Ok [].
Proof.
  intros Hparser Hvs.
  assert (Hbuild : forall ib, buildColsAndValuesForTag s ib tag items = Ok ib).
  { intros ib. unfold buildColsAndValuesForTag, callParser. rewrite Hparser. simpl.
    destruct (Tag (parser ()) tag); [|done]. by rewrite Hvs. }
  split; [done|].
  unfold InsertIntoForTag, InsertIgnoreIntoForTag, ReplaceIntoForTag.
  rewrite !Hbuild. done.
Qed.

(** ** Records of another type *)

Lemma filter_hasBoundType_idem (s : Struct) (items : list iface) :
  List.filter (hasBoundType s) (List.filter (hasBoundType s) items)
  = List.filter (hasBoundType s) items.
Proof.
  induction items as [|item items IH]; simpl; [done|].
  destruct (hasBoundType s item) eqn:Hb; simpl; [|done].
  by rewrite Hb, IH.
Qed.

Lemma forallb_isRecord_filter (s : Struct) (items : list iface) :
  forallb isRecord items = true ->
  forallb isRecord (List.filter (hasBoundType s) items) = true.
Proof.
  rewrite !forallb_forall. intros Hall item Hin.
  apply filter_In in Hin as [Hin _]. by apply Hall.
Qed.

(** A single-record operation on a mapper with a field parser returns
    the empty result when the dereferenced record is a Value of a type other
    than the bound type.  In a batch insert whose records all dereference to a Value,
    the type filter keeps exactly the records of the bound type, in order,
    and the insert is the insert of those records alone: the others leave no
    trace, and with a bound struct type the call returns normally. *)
Theorem mismatched_records_dropped (s : Struct) (parser : structFieldsParser) :
  Struct_structFieldsParser s = Some parser ->
  (forall (value : iface) (t : rtype),
     Value_Type (dereferencedValue (ValueOf value)) = Ok t ->
     Some t <> Struct_structType s ->
     (forall tag, ValuesForTag s tag value = Ok [])
     /\ (forall tag, AddrForTag s tag value = Ok [])
     /\ (forall cols, AddrWithCols s cols value = Ok [])
     /\ Values s value = Ok []
     /\ Addr s value = Ok [])
  /\ (forall (items : list iface),
        forallb isRecord items = true ->
        matchingValues s items
        = Ok ((fun item => dereferencedValue (ValueOf item))
                <$> List.filter (hasBoundType s) items)
        /\ (forall ib tag,
              buildColsAndValuesForTag s ib tag items
              = buildColsAndValuesForTag s ib tag (List.filter (hasBoundType s) items))
        /\ (forall st ib tag,
              Struct_structType s = Some (TStruct st) ->
              exists ib', buildColsAndValuesForTag s ib tag items = Ok ib')).
Proof.
  intros Hparser. split.
  - intros value t Ht Hne.
    assert (Hvalues : forall tag, ValuesForTag s tag value = Ok []).
    { intros tag. unfold ValuesForTag, callParser. rewrite Hparser. simpl.
      destruct (Tag (parser ()) tag); [|done]. rewrite Ht. simpl.
      by rewrite bool_decide_eq_true_2. }
    assert (Haddr : forall fields, addrWithFields s fields value = Ok []).
    { intros fields. unfold addrWithFields. rewrite Ht. simpl.
      by rewrite bool_decide_eq_true_2. }
    assert (HaddrTag : forall tag, AddrForTag s tag value = Ok []).
    { intros tag. unfold AddrForTag, callParser. rewrite Hparser. simpl.
      destruct (Tag (parser ()) tag); [|done]. apply Haddr. }
    repeat split; try done.
    + intros cols. unfold AddrWithCols, callParser. rewrite Hparser. simpl.
      destruct (Tag (parser ()) (Struct_structTag s)) as [tagged|]; [|done].
      destruct (Cols tagged cols); [|done]. apply Haddr.
    + apply Hvalues.
    + apply HaddrTag.
  - intros items Hrecords.
    assert (Hvs : matchingValues s items
                  = Ok ((fun item => dereferencedValue (ValueOf item))
                          <$> List.filter (hasBoundType s) items))
      by (by rewrite matchingValues_filter, Hrecords).
    assert (Hvs' : matchingValues s (List.filter (hasBoundType s) items)
                   = matchingValues s items).
    { rewrite Hvs, matchingValues_filter, forallb_isRecord_filter by done.
      by rewrite filter_hasBoundType_idem. }
    split; [done|]. split.
    + intros ib tag. unfold buildColsAndValuesForTag. by rewrite Hvs'.
    + intros st ib tag Htype.
      destruct (Tag (parser ()) tag) as [tagged|] eqn:Htag.
      * set (vs := (fun item => dereferencedValue (ValueOf item))
                     <$> List.filter (hasBoundType s) items) in *.
        destruct (decide (vs = [])) as [Hnil|Hne].
        -- exists ib. unfold buildColsAndValuesForTag, callParser.
           rewrite Hparser. simpl. by rewrite Htag, Hvs, Hnil.
        -- eexists. by apply (buildColsAndValuesForTag_rows s parser tagged st).
      * exists ib. unfold buildColsAndValuesForTag, callParser.
        rewrite Hparser. simpl. by rewrite Htag.
Qed.

End Facts.

(** * Further facts *)

(** ** The helpers *)

(** X2: when [dereferencedType] returns, the type it returns is neither a
    pointer nor an interface type and is its own dereferenced type; it
    panics on the nil Type, and otherwise only by reaching an interface
    type. *)
Theorem dereferencedType_fixpoint (t : rtype) :
  match dereferencedType (Some t) with
  | Ok t' =>
      Type_Kind t' <> reflect.Ptr
      /\ Type_Kind t' <> reflect.Interface
      /\ dereferencedType (Some t') = Ok t'
  | Panic p => p = ElemOfInvalidType
  end
  /\ dereferencedType None = Panic NilDereference.
Proof.
  split; [|done]. simpl.
  induction t; simpl; try done.
Qed.

(** X3: an empty value is never a non-nil pointer or interface:
    dereferencing an empty value either leaves it as it is or, for a nil
    pointer or nil interface, gives the zero Value. *)
Theorem empty_value_dereference (v : value) :
  isEmptyValue v = true ->
  (dereferencedValue v = v
   /\ Value_Kind v <> reflect.Ptr /\ Value_Kind v <> reflect.Interface)
  \/ (dereferencedValue v = VInvalid
      /\ (v = VNilInterface \/ exists t, v = VNilPtr t)).
Proof.
  destruct v; simpl; intros Hempty; try done;
    try (left; repeat split; done || by destruct k).
  - right. split; [done|]. by left.
  - right. split; [done|]. right. by eexists.
Qed.

(** ** Loops that collect one result per field *)

Lemma foldlM_pointwise {A B : Type} (f g : A -> B -> result A) (a : A) (l : list B) :
  (forall a x, f a x = g a x) -> foldlM f a l = foldlM g a l.
Proof.
  intros Hfg. revert a. induction l as [|x l IH]; intros a; simpl; [done|].
  rewrite Hfg. destruct (g a x) as [a'|p]; simpl; [apply IH | done].
Qed.

Lemma foldlM_snoc_mapM {A B : Type} (g : A -> result B) (l : list A) :
  forall acc,
    foldlM (fun acc x => y ← g x; Ok (acc ++ [y])) acc l
    = (fun k => acc ++ k) <$> mapM g l.
Proof.
  induction l as [|x l IH]; intros acc; simpl.
  - by rewrite app_nil_r.
  - destruct (g x) as [y|p]; simpl; [|done].
    rewrite IH. destruct (mapM g l) as [k|p]; simpl; [|done].
    by rewrite <- app_assoc.
Qed.

Lemma mapM_Ok_Forall2 {A B : Type} (g : A -> result B) (l : list A) (k : list B) :
  Forall2 (fun x y => g x = Ok y) l k -> mapM g l = Ok k.
Proof.
  induction 1 as [|x y l k Hx _ IH]; simpl; [done|]. by rewrite Hx, IH.
Qed.

Lemma mapM_Panic_uniform {A B : Type} (g : A -> result B) (l : list A) (p : panic) :
  (forall x q, g x = Panic q -> q = p) ->
  Exists (fun x => exists q, g x = Panic q) l ->
  mapM g l = Panic p.
Proof.
  intros Hp. induction 1 as [x l [q Hq]|x l _ IH]; simpl.
  - rewrite Hq. simpl. by rewrite (Hp x q Hq).
  - destruct (g x) as [y|q] eqn:Hx; simpl; [by rewrite IH|].
    by rewrite (Hp x q Hx).
Qed.

Lemma Value_Interface_valid (v : value) :
  IsValid v = true -> exists data, Value_Interface v = Ok data.
Proof. destruct v; simpl; try done; eauto. Qed.

Lemma Value_Interface_panic (v : value) (p : panic) :
  Value_Interface v = Panic p -> IsValid v = false /\ p = ZeroValueInterface.
Proof. destruct v; simpl; try done. by intros [= <-]. Qed.

Lemma Value_Interface_fields (fields : list (string * value)) (view : list structField) :
  Forall (fun sf => IsValid (lookupField fields (Name sf)) = true) view ->
  exists values,
    Forall2 (fun sf data => Value_Interface (lookupField fields (Name sf)) = Ok data)
            view values.
Proof.
  induction view as [|sf view IH]; intros Hvalid; [by exists []|].
  inversion Hvalid as [|? ? Hsf Hview]; subst.
  destruct (Value_Interface_valid _ Hsf) as [data Hdata].
  destruct (IH Hview) as [values Hvalues].
  exists (data :: values). by constructor.
Qed.

Section MoreFacts.

Context `{Externals}.

(** ** Values and addresses of a record *)

(** X4: for a record of the bound type, [ValuesForTag] returns one value per
    column of [ColumnsForTag], in the same order: the interface value of the
    field of each write-view field.  It panics when the record lacks one of
    the fields. *)
Theorem ValuesForTag_columns (s : Struct) (parser : structFieldsParser)
    (tagged : structTaggedFields) (st : StructType) (fields : list (string * value))
    (tag : string) (value : iface) :
  Struct_structFieldsParser s = Some parser ->
  Tag (parser ()) tag = Some tagged ->
  Struct_structType s = Some (TStruct st) ->
  dereferencedValue (ValueOf value) = VStruct st fields ->
  (Forall (fun sf => IsValid (lookupField fields (Name sf)) = true) (ForWrite tagged) ->
   exists values,
     ValuesForTag s tag value = Ok values
     /\ Forall2 (fun sf data => Value_Interface (lookupField fields (Name sf)) = Ok data)
                (ForWrite tagged) values
     /\ ColumnsForTag s tag = Ok (Alias <$> ForWrite tagged)
     /\ length values = length (Alias <$> ForWrite tagged))
  /\ (Exists (fun sf => IsValid (lookupField fields (Name sf)) = false) (ForWrite tagged) ->
      ValuesForTag s tag value = Panic ZeroValueInterface).
Proof.
  intros Hparser Htag Htype Hvalue.
  assert (Hloop : ValuesForTag s tag value
                  = mapM (fun sf => Value_Interface (lookupField fields (Name sf)))
                         (ForWrite tagged)).
  { unfold ValuesForTag, callParser. rewrite Hparser. simpl.
    rewrite Htag, Hvalue, Htype. simpl.
    rewrite bool_decide_eq_false_2 by (intros Hne; by apply Hne).
    rewrite (foldlM_snoc_mapM
               (fun sf => Value_Interface (lookupField fields (Name sf)))).
    by destruct (mapM _ _). }
  split.
  - intros Hvalid.
    destruct (Value_Interface_fields fields _ Hvalid) as [values Hall]. exists values.
    split; [by rewrite Hloop; apply mapM_Ok_Forall2|]. split; [done|]. split.
    + unfold ColumnsForTag, callParser. rewrite Hparser. simpl. rewrite Htag.
      by rewrite foldl_snoc_fmap.
    + rewrite length_fmap. symmetry. by eapply Forall2_length.
  - intros Hmissing. rewrite Hloop.
    apply mapM_Panic_uniform.
    + intros sf q Hq. by apply Value_Interface_panic in Hq as [_ ->].
    + eapply Exists_impl; [exact Hmissing|]. intros sf Hsf. simpl in Hsf.
      destruct (lookupField fields (Name sf)); try done. by eexists.
Qed.

Lemma addrWithFields_struct (s : Struct) (st : StructType)
    (fields : list (string * value)) (view : list structField) (record : iface) :
  Struct_structType s = Some (TStruct st) ->
  dereferencedValue (ValueOf record) = VStruct st fields ->
  addrWithFields s view record
  = mapM (fun sf =>
            addr ← Value_Addr (derefCanAddr (ValueOf record)) (lookupField fields (Name sf));
            Value_Interface addr)
         view.
Proof.
  intros Htype Hrecord. unfold addrWithFields. rewrite Hrecord, Htype. simpl.
  rewrite bool_decide_eq_false_2 by (intros Hne; by apply Hne).
  rewrite (foldlM_pointwise _
             (fun acc sf =>
                y ← (addr ← Value_Addr (derefCanAddr (ValueOf record))
                                       (lookupField fields (Name sf));
                     Value_Interface addr);
                Ok (acc ++ [y]))).
  - rewrite foldlM_snoc_mapM. by destruct (mapM _ _).
  - intros addrs sf. simpl. by destruct (Value_Addr _ _).
Qed.


(** X6: a record of the bound type that is passed by value (not reached
    through a pointer) has no addressable fields: [AddrForTag] panics as soon
    as the read view has a field. *)
Theorem AddrForTag_by_value_panics (s : Struct) (parser : structFieldsParser)
    (tagged : structTaggedFields) (st : StructType) (fields : list (string * value))
    (tag : string) (record : iface) :
  Struct_structFieldsParser s = Some parser ->
  Tag (parser ()) tag = Some tagged ->
  Struct_structType s = Some (TStruct st) ->
  dereferencedValue (ValueOf record) = VStruct st fields ->
  derefCanAddr (ValueOf record) = false ->
  ForRead tagged <> [] ->
  AddrForTag s tag record = Panic Unaddressable
  /\ AddrForTag s tag (Some (VStruct st fields)) = Panic Unaddressable.
Proof.
  intros Hparser Htag Htype Hrecord Haddr Hview.
  assert (Hpanic : forall r,
             dereferencedValue (ValueOf r) = VStruct st fields ->
             derefCanAddr (ValueOf r) = false ->
             AddrForTag s tag r = Panic Unaddressable).
  { intros r Hr Hcan. unfold AddrForTag, callParser. rewrite Hparser. simpl.
    rewrite Htag. rewrite (addrWithFields_struct s st fields) by done.
    rewrite Hcan. destruct (ForRead tagged); done. }
  split; [by apply Hpanic|]. by apply Hpanic.
Qed.

(** ** Configured mappers *)

Lemma call_alloc {A : Type} (h : heap) (c : Struct) (method : Struct -> result A) :
  call (h ++ [c]) (length h) method = method c.
Proof.
  unfold call, load. pose proof (alloc_holds h c) as Hc.
  unfold heap, ptr in *. by rewrite Hc.
Qed.

Lemma call_load {A : Type} (h : heap) (s : ptr) (c : Struct) (method : Struct -> result A) :
  h !! s = Some c -> call h s method = method c.
Proof. intros Hs. unfold call, load. by rewrite Hs. Qed.

(** X7: what the comment of [WithTag] says, for every method with a default
    tag: calling the plain method on [s.WithTag(tag)] is calling its [ForTag]
    variant with [tag] on [s]. *)
Theorem WithTag_default_tag (h : heap) (s : ptr) (c : Struct) (tag : string) :
  h !! s = Some c ->
  exists h' r,
    WithTag h s tag = Ok (h', r)
    /\ (forall table,
          call h' r (fun c => SelectFrom c table)
          = call h s (fun c => SelectFromForTag c table tag))
    /\ (forall table value,
          call h' r (fun c => Update c table value)
          = call h s (fun c => UpdateForTag c table tag value))
    /\ (forall table items,
          call h' r (fun c => InsertInto c table items)
          = call h s (fun c => InsertIntoForTag c table tag items))
    /\ (forall table items,
          call h' r (fun c => InsertIgnoreInto c table items)
          = call h s (fun c => InsertIgnoreIntoForTag c table tag items))
    /\ (forall table items,
          call h' r (fun c => ReplaceInto c table items)
          = call h s (fun c => ReplaceIntoForTag c table tag items))
    /\ (forall st,
          call h' r (fun c => Addr c st) = call h s (fun c => AddrForTag c tag st))
    /\ call h' r Columns = call h s (fun c => ColumnsForTag c tag)
    /\ (forall value,
          call h' r (fun c => Values c value)
          = call h s (fun c => ValuesForTag c tag value)).
Proof.
  intros Hs. unfold WithTag, load, alloc. rewrite Hs. simpl.
  eexists _, _. split; [done|].
  repeat split; intros; rewrite call_alloc, (call_load h s c) by done; reflexivity.
Qed.

(** X8: the dialect plays no part in what a mapper extracts from a type or a
    record: columns, values and addresses of [s.For(flavor)] are those of
    [s]; the builders it makes are bound to [flavor]. *)
Theorem For_keeps_extraction (h : heap) (s : ptr) (c : Struct) (flavor : Flavor) :
  h !! s = Some c ->
  exists h' r,
    For h s flavor = Ok (h', r)
    /\ (forall tag,
          call h' r (fun c => ColumnsForTag c tag)
          = call h s (fun c => ColumnsForTag c tag))
    /\ (forall tag value,
          call h' r (fun c => ValuesForTag c tag value)
          = call h s (fun c => ValuesForTag c tag value))
    /\ (forall tag st,
          call h' r (fun c => AddrForTag c tag st)
          = call h s (fun c => AddrForTag c tag st))
    /\ (forall cols st,
          call h' r (fun c => AddrWithCols c cols st)
          = call h s (fun c => AddrWithCols c cols st))
    /\ (forall table,
          call h' r (fun c => DeleteFrom c table)
          = Ok {| db_flavor := flavor; db_table := table |})
    /\ (forall table tag,
          sb_flavor <$> call h' r (fun c => SelectFromForTag c table tag)
          = (fun _ => flavor) <$> call h s (fun c => SelectFromForTag c table tag)).
Proof.
  intros Hs. unfold For, load, alloc. rewrite Hs. simpl.
  eexists _, _. split; [done|].
  repeat split; intros; rewrite call_alloc, ?(call_load h s c) by done;
    try reflexivity.
  unfold SelectFromForTag, callParser. simpl.
  destruct (Struct_structFieldsParser c) as [parser|]; simpl; [|done].
  by destruct (Tag (parser ()) tag).
Qed.

Lemma buildColsAndValuesForTag_flavor (s : Struct) (ib : InsertBuilder) (tag : string)
    (items : list iface) :
  (fun ib' => (ib_flavor ib', ib_verb ib', ib_table ib'))
    <$> buildColsAndValuesForTag s ib tag items
  = (fun _ => (ib_flavor ib, ib_verb ib, ib_table ib))
      <$> buildColsAndValuesForTag s ib tag items.
Proof.
  unfold buildColsAndValuesForTag.
  destruct (callParser s) as [sfs|]; simpl; [|done].
  destruct (Tag sfs tag) as [tagged|]; [|done].
  destruct (matchingValues s items) as [vs|]; simpl; [|done].
  destruct (Nat.eqb (length vs) 0); [done|].
  destruct (gatherColumns s tag vs (ForWrite tagged)) as [[[cols values] nilCols]|];
    simpl; [|done].
  destruct (filterColumns cols values nilCols) as [[filteredCols filteredValues]|];
    simpl; [|done].
  by rewrite foldl_Values.
Qed.

(** X9: whatever the tag and the records, a builder that a mapper returns is
    bound to the mapper's dialect and to the table of the call, and an insert
    builder has the verb of the method; [DeleteFrom] always returns. *)
Theorem builders_carry_flavor_and_table (s : Struct) (table tag : string) :
  (fun sb => (sb_flavor sb, sb_tables sb)) <$> SelectFromForTag s table tag
  = (fun _ => (Struct_Flavor s, [table])) <$> SelectFromForTag s table tag
  /\ (forall value,
        (fun ub => (ub_flavor ub, ub_table ub)) <$> UpdateForTag s table tag value
        = (fun _ => (Struct_Flavor s, table)) <$> UpdateForTag s table tag value)
  /\ (forall items,
        (fun ib => (ib_flavor ib, ib_verb ib, ib_table ib))
          <$> InsertIntoForTag s table tag items
        = (fun _ => (Struct_Flavor s, verbInsert, table))
            <$> InsertIntoForTag s table tag items)
  /\ (forall items,
        (fun ib => (ib_flavor ib, ib_verb ib, ib_table ib))
          <$> InsertIgnoreIntoForTag s table tag items
        = (fun _ => (Struct_Flavor s, verbInsertIgnore, table))
            <$> InsertIgnoreIntoForTag s table tag items)
  /\ (forall items,
        (fun ib => (ib_flavor ib, ib_verb ib, ib_table ib))
          <$> ReplaceIntoForTag s table tag items
        = (fun _ => (Struct_Flavor s, verbReplace, table))
            <$> ReplaceIntoForTag s table tag items)
  /\ DeleteFrom s table = Ok {| db_flavor := Struct_Flavor s; db_table := table |}.
Proof.
  split; [|split; [|split; [|split; [|split]]]].
  - unfold SelectFromForTag. destruct (callParser s) as [sfs|]; simpl; [|done].
    by destruct (Tag sfs tag).
  - intros value. unfold UpdateForTag.
    destruct (callParser s) as [sfs|]; simpl; [|done].
    destruct (Tag sfs tag) as [tagged|]; [|done].
    destruct (Value_Type _) as [t|]; simpl; [|done].
    destruct (bool_decide _); [done|].
    by destruct (foldlM _ _ _).
  - intros items. apply buildColsAndValuesForTag_flavor.
  - intros items. apply buildColsAndValuesForTag_flavor.
  - intros items. apply buildColsAndValuesForTag_flavor.
  - done.
Qed.

Lemma For_alloc (h : heap) (s : ptr) (c : Struct) (flavor : Flavor) :
  h !! s = Some c ->
  For h s flavor
  = Ok (h ++ [{| Struct_Flavor := flavor;
                 Struct_structType := Struct_structType c;
                 Struct_structFieldsParser := Struct_structFieldsParser c;
                 Struct_structTag := Struct_structTag c |}],
        length h).
Proof. intros Hs. unfold For, load, alloc. by rewrite Hs. Qed.

Lemma WithTag_alloc (h : heap) (s : ptr) (c : Struct) (tag : string) :
  h !! s = Some c ->
  WithTag h s tag
  = Ok (h ++ [{| Struct_Flavor := Struct_Flavor c;
                 Struct_structType := Struct_structType c;
                 Struct_structFieldsParser := Struct_structFieldsParser c;
                 Struct_structTag := tag |}],
        length h).
Proof. intros Hs. unfold WithTag, load, alloc. by rewrite Hs. Qed.

(** X10: the configuration methods compose: setting the dialect and the
    default tag in either order gives mappers with the same fields, and of
    two default tags set in a row the last one stands. *)
Theorem configuration_composes (h : heap) (s : ptr) (c : Struct)
    (flavor : Flavor) (tag tag' : string) :
  h !! s = Some c ->
  let c' := {| Struct_Flavor := flavor;
               Struct_structType := Struct_structType c;
               Struct_structFieldsParser := Struct_structFieldsParser c;
               Struct_structTag := tag |} in
  (exists h1 r1 h2 r2,
     For h s flavor = Ok (h1, r1) /\ WithTag h1 r1 tag = Ok (h2, r2)
     /\ h2 !! r2 = Some c')
  /\ (exists h1 r1 h2 r2,
        WithTag h s tag = Ok (h1, r1) /\ For h1 r1 flavor = Ok (h2, r2)
        /\ h2 !! r2 = Some c')
  /\ (exists h1 r1 h2 r2 h3 r3,
        For h s flavor = Ok (h1, r1) /\ WithTag h1 r1 tag' = Ok (h2, r2)
        /\ WithTag h2 r2 tag = Ok (h3, r3)
        /\ h3 !! r3 = Some c').
Proof.
  intros Hs c'. split; [|split].
  - eexists _, _, _, _. split; [by apply For_alloc|].
    split; [apply WithTag_alloc, alloc_holds|]. apply alloc_holds.
  - eexists _, _, _, _. split; [by apply WithTag_alloc|].
    split; [apply For_alloc, alloc_holds|]. apply alloc_holds.
  - eexists _, _, _, _, _, _. split; [by apply For_alloc|].
    split; [apply WithTag_alloc, alloc_holds|].
    split; [apply WithTag_alloc, alloc_holds|]. apply alloc_holds.
Qed.

Lemma Forall_consistent_alloc (h : heap) (c : Struct) :
  Forall consistent h -> consistent c -> Forall consistent (h ++ [c]).
Proof. intros Hh Hc. apply Forall_app. split; [done|]. by constructor. Qed.

(** X11: the constructor and the configuration methods keep the store of
    mappers consistent: a mapper has a field parser exactly when it has a
    bound type, which then is a struct type; and the pointer they return
    points to a mapper. *)
Theorem mapper_store_consistent (h : heap) :
  Forall consistent h ->
  Forall consistent initHeap
  /\ (forall structValue h' r,
        is_Some (h !! emptyStructAddr) ->
        NewStruct h structValue = Ok (h', r) ->
        Forall consistent h' /\ is_Some (h' !! r))
  /\ (forall s cfg h' r,
        configure h s cfg = Ok (h', r) ->
        Forall consistent h' /\ is_Some (h' !! r)).
Proof.
  intros Hh. split; [|split].
  - by repeat constructor.
  - intros structValue h' r Hdummy. unfold NewStruct, alloc.
    destruct (dereferencedType (TypeOf structValue)) as [t|]; simpl; [|done].
    destruct (bool_decide (Type_Kind t <> reflect.Struct)) eqn:Hkind.
    + by intros [= <- <-].
    + intros [= <- <-]. apply bool_decide_eq_false in Hkind.
      split; [|eexists; apply alloc_holds].
      apply Forall_consistent_alloc; [done|]. unfold consistent. simpl.
      by destruct (decide (Type_Kind t = reflect.Struct)).
  - intros s cfg h' r.
    destruct cfg as [flavor|mapper|tag]; simpl;
      unfold For, WithFieldMapper, WithTag, load, alloc;
      destruct (h !! s) as [c|] eqn:Hs; simpl; try done.
    + intros [= <- <-]. split; [|eexists; apply alloc_holds].
      apply Forall_consistent_alloc; [done|].
      rewrite Forall_forall in Hh. by apply (Hh c), list_elem_of_lookup_2 with s.
    + assert (Hc : consistent c).
      { rewrite Forall_forall in Hh. by apply (Hh c), list_elem_of_lookup_2 with s. }
      unfold consistent in Hc.
      destruct (Struct_structType c) as [t|] eqn:Ht.
      * intros [= <- <-]. split; [|eexists; apply alloc_holds].
        apply Forall_consistent_alloc; [done|]. unfold consistent. simpl.
        by destruct (Struct_structFieldsParser c).
      * intros [= <- <-]. split; [done|].
        unfold heap, emptyStructAddr in *. destruct h; [done|]. by eexists.
    + intros [= <- <-]. split; [|eexists; apply alloc_holds].
      apply Forall_consistent_alloc; [done|].
      rewrite Forall_forall in Hh. by apply (Hh c), list_elem_of_lookup_2 with s.
Qed.

(** X12: [NewStruct] looks through pointers: a pointer to a sample value
    gives the mapper the sample value itself gives.  It never changes a
    mapper that exists already. *)
Theorem NewStruct_through_pointer (h : heap) (v : value) (t : rtype) :
  Value_Type v = Ok t ->
  NewStruct h (Some (VPtr v)) = NewStruct h (Some v)
  /\ (forall structValue h' r,
        NewStruct h structValue = Ok (h', r) ->
        forall p c, h !! p = Some c -> h' !! p = Some c).
Proof.
  intros Ht. split.
  - unfold NewStruct, TypeOf. simpl. rewrite Ht. done.
  - intros structValue h' r. unfold NewStruct, alloc.
    destruct (dereferencedType (TypeOf structValue)) as [t'|]; simpl; [|done].
    destruct (bool_decide _); intros [= <- <-] p c Hp; [done|].
    by apply alloc_frame.
Qed.

(** ** Records that do not fit, and tags without view *)

(** X13: [UpdateForTag] returns the builder with the table and no assignment
    when the tag has no view (whatever the record, nil included) and when the
    record has another type than the bound one; with a view, a record that is
    nil or a nil pointer makes it panic. *)
Theorem UpdateForTag_bare (s : Struct) (parser : structFieldsParser)
    (table tag : string) :
  Struct_structFieldsParser s = Some parser ->
  let bare := {| ub_flavor := Struct_Flavor s; ub_table := table; ub_assignments := [] |} in
  (Tag (parser ()) tag = None -> forall value, UpdateForTag s table tag value = Ok bare)
  /\ (forall value t,
        Value_Type (dereferencedValue (ValueOf value)) = Ok t ->
        Some t <> Struct_structType s ->
        UpdateForTag s table tag value = Ok bare)
  /\ (forall value,
        Tag (parser ()) tag <> None ->
        isRecord value = false ->
        UpdateForTag s table tag value = Panic ZeroValueType).
Proof.
  intros Hparser bare. unfold UpdateForTag, callParser. rewrite Hparser. simpl.
  split; [|split].
  - intros Htag value. by rewrite Htag.
  - intros value t Ht Hne. destruct (Tag (parser ()) tag); [|done].
    rewrite Ht. simpl. by rewrite bool_decide_eq_true_2.
  - intros value Htag Hnil. destruct (Tag (parser ()) tag); [|done].
    unfold isRecord in Hnil.
    pose proof (Value_Type_dereferenced (ValueOf value)) as Hty.
    destruct (Value_Type (dereferencedValue (ValueOf value))); [congruence|].
    by destruct Hty as [_ ->].
Qed.

(** X14: for a tag without view the records are not looked at: whatever
    they are, nil included, an insert leaves the builder as it is, and
    [ValuesForTag] and [AddrForTag] return the empty result. *)
Theorem absent_view_ignores_records (s : Struct) (parser : structFieldsParser)
    (tag : string) :
  Struct_structFieldsParser s = Some parser ->
  Tag (parser ()) tag = None ->
  (forall ib items, buildColsAndValuesForTag s ib tag items = Ok ib)
  /\ (forall table items,
        InsertIntoForTag s table tag items
        = Ok {| ib_flavor := Struct_Flavor s; ib_verb := verbInsert; ib_table := table;
                ib_cols := []; ib_values := [] |})
  /\ (forall value, ValuesForTag s tag value = Ok [])
  /\ (forall st, AddrForTag s tag st = Ok []).
Proof.
  intros Hparser Htag.
  unfold InsertIntoForTag, buildColsAndValuesForTag, ValuesForTag, AddrForTag, callParser.
  rewrite Hparser. simpl. rewrite Htag. done.
Qed.

(** X15: with a view for the tag, one record that is nil or a nil pointer
    makes every insert variant and [ValuesForTag] panic, wherever it stands
    in the list and whatever the other records are. *)
Theorem nil_record_panics (s : Struct) (parser : structFieldsParser)
    (tagged : structTaggedFields) (table tag : string) (items : list iface) :
  Struct_structFieldsParser s = Some parser ->
  Tag (parser ()) tag = Some tagged ->
  Exists (fun item => isRecord item = false) items ->
  InsertIntoForTag s table tag items = Panic ZeroValueType
  /\ InsertIgnoreIntoForTag s table tag items = Panic ZeroValueType
  /\ ReplaceIntoForTag s table tag items = Panic ZeroValueType
  /\ (forall value, isRecord value = false ->
                    ValuesForTag s tag value = Panic ZeroValueType).
Proof.
  intros Hparser Htag Hnil.
  assert (Hvs : matchingValues s items = Panic ZeroValueType).
  { rewrite matchingValues_filter.
    replace (forallb isRecord items) with false; [done|].
    symmetry. apply not_true_iff_false. rewrite forallb_forall. intros Hall.
    apply Exists_exists in Hnil as (item & Hin & Hitem).
    apply list_elem_of_In, Hall in Hin. congruence. }
  unfold InsertIntoForTag, InsertIgnoreIntoForTag, ReplaceIntoForTag,
    buildColsAndValuesForTag, ValuesForTag, callParser.
  rewrite Hparser. simpl. rewrite Htag, Hvs. simpl. repeat split.
  intros value Hvalue. unfold isRecord in Hvalue.
  pose proof (Value_Type_dereferenced (ValueOf value)) as Hty.
  destruct (Value_Type (dereferencedValue (ValueOf value))); [congruence|].
  by destruct Hty as [_ ->].
Qed.

(** ** The shape of an insert *)

Lemma matchingValues_length (s : Struct) (items : list iface) (vs : list value) :
  matchingValues s items = Ok vs ->
  forallb isRecord items = true
  /\ vs = (fun item => dereferencedValue (ValueOf item)) <$> List.filter (hasBoundType s) items
  /\ length vs <= length items.
Proof.
  rewrite matchingValues_filter.
  destruct (forallb isRecord items); [|done]. intros [= <-].
  split; [done|]. split; [done|].
  rewrite length_fmap. apply List.filter_length_le.
Qed.

(** X16: with at least one surviving record, an insert gives a rectangular
    scaffold: one row per surviving record, every row as long as the column
    list, at most as many rows as records passed and at most as many columns
    as the write view has fields. *)
Theorem insert_scaffold_rectangular (s : Struct) (parser : structFieldsParser)
    (tagged : structTaggedFields) (st : StructType)
    (table tag : string) (items : list iface) (vs : list value) :
  Struct_structFieldsParser s = Some parser ->
  Tag (parser ()) tag = Some tagged ->
  Struct_structType s = Some (TStruct st) ->
  matchingValues s items = Ok vs ->
  vs <> [] ->
  exists ib,
    InsertIntoForTag s table tag items = Ok ib
    /\ length (ib_values ib) = length vs
    /\ Forall (fun row => length row = length (ib_cols ib)) (ib_values ib)
    /\ length (ib_values ib) <= length items
    /\ length (ib_cols ib) <= length (ForWrite tagged).
Proof.
  intros Hparser Htag Htype Hvs Hne. eexists. split.
  - unfold InsertIntoForTag.
    by apply (buildColsAndValuesForTag_rows s parser tagged st).
  - simpl. rewrite !length_fmap. split; [done|]. split; [|split].
    + apply Forall_fmap, Forall_forall. intros v _. simpl. by rewrite length_fmap.
    + by apply (matchingValues_length s) in Hvs as (_ & _ & Hle).
    + apply List.filter_length_le.
Qed.

Lemma filter_sublist_impl {A : Type} (P Q : A -> bool) (l : list A) :
  (forall x, P x = true -> Q x = true) ->
  List.filter P l `sublist_of` List.filter Q l.
Proof.
  intros HPQ. induction l as [|x l IH]; simpl; [done|].
  destruct (P x) eqn:HP.
  - rewrite (HPQ x HP). by constructor.
  - destruct (Q x); [by constructor | done].
Qed.

Lemma matchingValues_app (s : Struct) (items more : list iface) (vs ws : list value) :
  matchingValues s items = Ok vs ->
  matchingValues s more = Ok ws ->
  matchingValues s (items ++ more) = Ok (vs ++ ws).
Proof.
  intros Hvs Hws.
  apply matchingValues_length in Hvs as (Hitems & -> & _).
  apply matchingValues_length in Hws as (Hmore & -> & _).
  rewrite matchingValues_filter, forallb_app, Hitems, Hmore. simpl.
  by rewrite List.filter_app, fmap_app.
Qed.

(** X17: passing more records never drops a column: the column list of an
    insert is a sublist of the column list of the insert with further
    records appended. *)
Theorem insert_columns_monotone (s : Struct) (parser : structFieldsParser)
    (tagged : structTaggedFields) (st : StructType) (ib : InsertBuilder)
    (tag : string) (items more : list iface) (vs ws : list value) :
  Struct_structFieldsParser s = Some parser ->
  Tag (parser ()) tag = Some tagged ->
  Struct_structType s = Some (TStruct st) ->
  matchingValues s items = Ok vs ->
  matchingValues s more = Ok ws ->
  vs <> [] ->
  exists ib1 ib2,
    buildColsAndValuesForTag s ib tag items = Ok ib1
    /\ buildColsAndValuesForTag s ib tag (items ++ more) = Ok ib2
    /\ ib_cols ib1 `sublist_of` ib_cols ib2.
Proof.
  intros Hparser Htag Htype Hvs Hws Hne.
  pose proof (matchingValues_app s items more vs ws Hvs Hws) as Happ.
  eexists _, _. split; [|split].
  - by apply (buildColsAndValuesForTag_rows s parser tagged st).
  - apply (buildColsAndValuesForTag_rows s parser tagged st); try done.
    by destruct vs.
  - simpl. apply fmap_sublist. apply filter_sublist_impl.
    intros sf. unfold dropped, emptyInAll. rewrite forallb_app.
    destruct (omitEmptyApplies sf tag); simpl; [|done].
    by destruct (forallb _ vs).
Qed.

(** X18: when no field of the write view has an omit-empty option that
    applies to the tag, an insert with a surviving record keeps every column
    of the write view and every row has a cell for each of them. *)
Theorem insert_without_omitempty (s : Struct) (parser : structFieldsParser)
    (tagged : structTaggedFields) (st : StructType) (ib : InsertBuilder)
    (tag : string) (items : list iface) (vs : list value) :
  Struct_structFieldsParser s = Some parser ->
  Tag (parser ()) tag = Some tagged ->
  Struct_structType s = Some (TStruct st) ->
  matchingValues s items = Ok vs ->
  vs <> [] ->
  Forall (fun sf => omitEmptyApplies sf tag = false) (ForWrite tagged) ->
  exists ib',
    buildColsAndValuesForTag s ib tag items = Ok ib'
    /\ ib_cols ib' = (fun sf => Quote sf (Struct_Flavor s)) <$> ForWrite tagged
    /\ ib_values ib'
       = ib_values ib ++ ((fun v => (cellOf v) <$> ForWrite tagged) <$> vs).
Proof.
  intros Hparser Htag Htype Hvs Hne Hnone.
  assert (Hkept : keptFields tag vs (ForWrite tagged) = ForWrite tagged).
  { unfold keptFields. induction Hnone as [|sf fw Hsf _ IH]; simpl; [done|].
    unfold dropped at 1. rewrite Hsf. simpl. by rewrite IH. }
  eexists. split.
  - by apply (buildColsAndValuesForTag_rows s parser tagged st).
  - simpl. by rewrite Hkept.
Qed.

(** ** Records by value and through pointers *)

Lemma sameRecord_matchingValues (s : Struct) (items items' : list iface) :
  Forall2 sameRecord items items' ->
  matchingValues s items = matchingValues s items'.
Proof.
  intros Hsame. rewrite !matchingValues_filter.
  assert (Hrec : forallb isRecord items = forallb isRecord items'
                 /\ (fun item => dereferencedValue (ValueOf item))
                      <$> List.filter (hasBoundType s) items
                    = (fun item => dereferencedValue (ValueOf item))
                        <$> List.filter (hasBoundType s) items').
  { induction Hsame as [|a b items items' Hab _ [IH1 IH2]]; [done|].
    unfold sameRecord in Hab.
    assert (Hrecord : isRecord a = isRecord b) by (unfold isRecord; by rewrite Hab).
    assert (Hbound : hasBoundType s a = hasBoundType s b)
      by (unfold hasBoundType; by rewrite Hab).
    cbn [forallb List.filter]. rewrite Hrecord, Hbound, IH1.
    split; [done|].
    destruct (hasBoundType s b); [|done].
    rewrite !fmap_cons. by rewrite Hab, IH2. }
  destruct Hrec as [-> ->]. done.
Qed.

(** X19: [UpdateForTag], [ValuesForTag] and the inserts see a record only
    through [dereferencedValue]: a record passed through a pointer, or
    through several, gives what the record passed by value gives. *)
Theorem same_record_same_result (s : Struct) (tag : string) :
  (forall a b table,
     sameRecord a b ->
     UpdateForTag s table tag a = UpdateForTag s table tag b
     /\ ValuesForTag s tag a = ValuesForTag s tag b)
  /\ (forall items items' ib,
        Forall2 sameRecord items items' ->
        buildColsAndValuesForTag s ib tag items
        = buildColsAndValuesForTag s ib tag items')
  /\ (forall v, sameRecord (Some (VPtr v)) (Some v)).
Proof.
  split; [|split].
  - intros a b table Hab. unfold sameRecord in Hab.
    unfold UpdateForTag, ValuesForTag. by rewrite Hab.
  - intros items items' ib Hsame. unfold buildColsAndValuesForTag.
    by rewrite (sameRecord_matchingValues s items items').
  - done.
Qed.

(** ** Records the methods panic on *)

Lemma assignmentOf_panic (s : Struct) (fields : list (string * value))
    (sf : structField) (p : panic) :
  assignmentOf s fields sf = Panic p -> p = ZeroValueInterface.
Proof.
  unfold assignmentOf. destruct (Value_Interface _) as [data|q] eqn:Hq; [done|].
  intros [= <-]. by apply Value_Interface_panic in Hq as [_ ->].
Qed.

Lemma matchingValues_single (s : Struct) (st : StructType)
    (fields : list (string * value)) (value : iface) :
  Struct_structType s = Some (TStruct st) ->
  dereferencedValue (ValueOf value) = VStruct st fields ->
  matchingValues s [value] = Ok [VStruct st fields].
Proof.
  intros Htype Hvalue. rewrite matchingValues_filter. simpl.
  unfold isRecord, hasBoundType. rewrite Hvalue, Htype. simpl.
  rewrite bool_decide_eq_true_2 by done. simpl. by rewrite Hvalue.
Qed.

(** C3: a record of the bound type with a field of the write view that is
    not empty and dereferences to the zero Value (an interface holding a nil
    pointer, a pointer to a nil pointer) makes [UpdateForTag] panic: the
    field is included, and [val.Interface()] is called on the zero Value.
    The insert of the same record returns, with the null placeholder in the
    cell of that field: its loop tests [val.IsValid()] first. *)
Theorem UpdateForTag_zero_value_panics (s : Struct) (parser : structFieldsParser)
    (tagged : structTaggedFields) (st : StructType) (fields : list (string * value))
    (table tag : string) (value : iface) (sf : structField) (ib : InsertBuilder) :
  Struct_structFieldsParser s = Some parser ->
  Tag (parser ()) tag = Some tagged ->
  Struct_structType s = Some (TStruct st) ->
  dereferencedValue (ValueOf value) = VStruct st fields ->
  sf ∈ ForWrite tagged ->
  isEmptyValue (lookupField fields (Name sf)) = false ->
  dereferencedValue (lookupField fields (Name sf)) = VInvalid ->
  included tag fields sf = true
  /\ UpdateForTag s table tag value = Panic ZeroValueInterface
  /\ sf ∈ keptFields tag [VStruct st fields] (ForWrite tagged)
  /\ cellOf (VStruct st fields) sf = nil
  /\ buildColsAndValuesForTag s ib tag [value]
     = Ok {| ib_flavor := ib_flavor ib; ib_verb := ib_verb ib; ib_table := ib_table ib;
             ib_cols := (fun sf => Quote sf (Struct_Flavor s))
                          <$> keptFields tag [VStruct st fields] (ForWrite tagged);
             ib_values := ib_values ib
                          ++ [(cellOf (VStruct st fields))
                                <$> keptFields tag [VStruct st fields] (ForWrite tagged)] |}.
Proof.
  intros Hparser Htag Htype Hvalue Hsf Hfull Hzero.
  assert (Hincluded : included tag fields sf = true)
    by (unfold included; by rewrite Hfull).
  split; [done|]. split; [|split; [|split]].
  - unfold UpdateForTag, callParser. rewrite Hparser. simpl.
    rewrite Htag, Hvalue, Htype. simpl.
    rewrite bool_decide_eq_false_2 by (intros Hne; by apply Hne).
    rewrite foldlM_assignField.
    rewrite (mapM_Panic_uniform _ _ ZeroValueInterface); [done| |].
    + intros sf' q. apply assignmentOf_panic.
    + apply Exists_exists. exists sf. split.
      * apply list_elem_of_In, filter_In. split; [by apply list_elem_of_In | done].
      * exists ZeroValueInterface. unfold assignmentOf. by rewrite Hfull, Hzero.
  - apply elem_of_keptFields. split; [done|]. intros [_ Hall].
    specialize (Hall (VStruct st fields) ltac:(by left)). simpl in Hall. congruence.
  - apply cellOf_nil_iff. done.
  - apply (buildColsAndValuesForTag_rows s parser tagged st); try done.
    by apply matchingValues_single.
Qed.

(** C6: a nil pointer to a record of another type than the bound one makes
    the single-record operations and every insert variant panic, wherever
    it stands among the records: [v.Type()] is called on the zero Value that
    dereferencing a nil pointer gives, so the record is neither dropped nor
    answered with the empty result. *)
Theorem typed_nil_record_panics (s : Struct) (parser : structFieldsParser)
    (tagged : structTaggedFields) (table tag : string) (t t' : rtype)
    (items : list iface) :
  Struct_structFieldsParser s = Some parser ->
  Tag (parser ()) tag = Some tagged ->
  dereferencedType (TypeOf (Some (VNilPtr t))) = Ok t' ->
  Some t' <> Struct_structType s ->
  Some (VNilPtr t) ∈ items ->
  ValuesForTag s tag (Some (VNilPtr t)) = Panic ZeroValueType
  /\ AddrForTag s tag (Some (VNilPtr t)) = Panic ZeroValueType
  /\ (forall cols fields,
        Struct_structTag s = tag -> Cols tagged cols = Some fields ->
        AddrWithCols s cols (Some (VNilPtr t)) = Panic ZeroValueType)
  /\ UpdateForTag s table tag (Some (VNilPtr t)) = Panic ZeroValueType
  /\ InsertIntoForTag s table tag items = Panic ZeroValueType
  /\ InsertIgnoreIntoForTag s table tag items = Panic ZeroValueType
  /\ ReplaceIntoForTag s table tag items = Panic ZeroValueType.
Proof.
  intros Hparser Htag _ _ Hin.
  assert (Hvs : matchingValues s items = Panic ZeroValueType).
  { rewrite matchingValues_filter.
    replace (forallb isRecord items) with false; [done|].
    symmetry. apply not_true_iff_false. rewrite forallb_forall. intros Hall.
    apply list_elem_of_In, Hall in Hin. done. }
  unfold ValuesForTag, AddrForTag, AddrWithCols, UpdateForTag, addrWithFields,
    InsertIntoForTag, InsertIgnoreIntoForTag, ReplaceIntoForTag,
    buildColsAndValuesForTag, callParser.
  rewrite Hparser. simpl. rewrite Htag, Hvs. simpl.
  repeat split. intros cols fields -> Hcols. by rewrite Htag, Hcols.
Qed.

End MoreFacts.

(** * The statements at sample inputs *)

#[local] Existing Instance sampleExternals.

(** The mapper [NewStruct] makes from a [User] is [userStruct]. *)
Lemma NewStruct_user :
  NewStruct (H := sampleExternals) initHeap (Some (VPtr (user 0 "")))
  = Ok (initHeap ++ [userStruct], 1).
Proof. reflexivity. Qed.

(** The end-to-end case of the spec: a batch of two users, the first with an
    empty name.  The column [name] stays. *)
Lemma insert_drops_column_iff_witness :
  matchingValues userStruct [Some (user 1 ""); Some (VInt 7); Some (VPtr (user 2 "x"))]
  = Ok [user 1 ""; user 2 "x"]
  /\ exists ib',
       buildColsAndValuesForTag userStruct (NewInsertBuilder sampleFlavor) ""
         [Some (user 1 ""); Some (VInt 7); Some (VPtr (user 2 "x"))] = Ok ib'
       /\ ib_cols ib' = ["id"; "name"].
Proof.
  split; [reflexivity|].
  destruct (insert_drops_column_iff userStruct _ _ userType (NewInsertBuilder sampleFlavor) ""
              [Some (user 1 ""); Some (VInt 7); Some (VPtr (user 2 "x"))]
              [user 1 ""; user 2 "x"]
              eq_refl eq_refl eq_refl eq_refl ltac:(discriminate))
    as (ib' & Hbuild & Hcols & _).
  exists ib'. split; [exact Hbuild|]. rewrite Hcols. reflexivity.
Defined.

(** With the first user alone the column [name] goes. *)
Lemma insert_rows_dereferenced_witness :
  matchingValues userStruct [Some (user 1 "")] = Ok [user 1 ""]
  /\ exists ib',
       buildColsAndValuesForTag userStruct (NewInsertBuilder sampleFlavor) "" [Some (user 1 "")]
       = Ok ib'
       /\ ib_values ib' = [[Some (VInt 1)]].
Proof.
  split; [reflexivity|].
  destruct (insert_rows_dereferenced userStruct _ _ userType (NewInsertBuilder sampleFlavor) ""
              [Some (user 1 "")] [user 1 ""]
              eq_refl eq_refl eq_refl eq_refl ltac:(discriminate))
    as (ib' & Hbuild & Hrows & _).
  exists ib'. split; [exact Hbuild|]. rewrite Hrows. reflexivity.
Defined.

(** C2, as stated, fails on the end-to-end case of the spec: the column
    [name] is retained because of the second user, and the first user's row
    holds the empty string for it, not the null placeholder. *)
Lemma null_placeholder_counterexample :
  ~ nullPlaceholderClaim userStruct "t" "" [Some (user 1 ""); Some (user 2 "x")].
Proof.
  intros Hclaim.
  pose proof (Hclaim _ _ _ _ eq_refl eq_refl eq_refl eq_refl
                0 1 _ _ _ eq_refl eq_refl eq_refl eq_refl eq_refl) as Hnil.
  discriminate Hnil.
Qed.

(** An update of a user with an empty name assigns [id] only. *)
Lemma UpdateForTag_assignments_witness :
  dereferencedValue (ValueOf (Some (VPtr (user 1 ""))))
  = VStruct userType [("ID", VInt 1); ("Name", VString "")]
  /\ UpdateForTag userStruct "t" "" (Some (VPtr (user 1 "")))
     = Ok {| ub_flavor := sampleFlavor; ub_table := "t"; ub_assignments := [("id", Some (VInt 1))] |}.
Proof.
  split; [reflexivity|].
  destruct (UpdateForTag_assignments userStruct _ _ userType
              [("ID", VInt 1); ("Name", VString "")] "t" "" (Some (VPtr (user 1 "")))
              eq_refl eq_refl eq_refl eq_refl)
    as (Hupdate & _).
  rewrite Hupdate. reflexivity.
Defined.

(** An insert whose only record is not a [User]. *)
Lemma insert_without_records_witness :
  matchingValues userStruct [Some (VInt 3)] = Ok []
  /\ InsertIntoForTag userStruct "t" "" [Some (VInt 3)]
     = Ok {| ib_flavor := sampleFlavor; ib_verb := verbInsert; ib_table := "t";
             ib_cols := []; ib_values := [] |}.
Proof.
  split; [reflexivity|].
  destruct (insert_without_records userStruct _ "t" "" [Some (VInt 3)] eq_refl eq_refl)
    as (_ & Hinsert & _).
  exact Hinsert.
Defined.

(** C4, as stated, fails for the empty record list: the write view of
    [User] has the columns [id] and [name], the builder gets none. *)
Lemma column_only_counterexample :
  ~ columnOnlyClaim userStruct "t" "" [].
Proof.
  intros Hclaim.
  destruct (Hclaim _ _ eq_refl eq_refl eq_refl) as (ib & Hib & Hcols & _).
  vm_compute in Hib. injection Hib as <-.
  vm_compute in Hcols. discriminate Hcols.
Qed.

(** An integer where a [User] is expected. *)
Lemma mismatched_records_dropped_witness :
  Struct_structFieldsParser userStruct = Some (makeDefaultFieldsParser (TStruct userType))
  /\ ValuesForTag userStruct "" (Some (VInt 3)) = Ok []
  /\ AddrForTag userStruct "" (Some (VPtr (VInt 3))) = Ok []
  /\ matchingValues userStruct [Some (VInt 3); Some (user 2 "x")] = Ok [user 2 "x"].
Proof.
  split; [reflexivity|].
  destruct (mismatched_records_dropped userStruct _ eq_refl) as [Hsingle Hbatch].
  destruct (Hsingle (Some (VInt 3)) TInt eq_refl ltac:(discriminate)) as (Hvalues & _).
  destruct (Hsingle (Some (VPtr (VInt 3))) TInt eq_refl ltac:(discriminate))
    as (_ & Haddr & _).
  destruct (Hbatch [Some (VInt 3); Some (user 2 "x")] eq_refl) as (Hvs & _).
  split; [apply Hvalues|]. split; [apply Haddr|]. rewrite Hvs. reflexivity.
Defined.

Lemma SelectFromForTag_columns_witness :
  Struct_structFieldsParser userStruct = Some (makeDefaultFieldsParser (TStruct userType))
  /\ SelectFromForTag userStruct "t" ""
     = Ok {| sb_flavor := sampleFlavor; sb_tables := ["t"]; sb_selectCols := ["t.id"; "t.name"] |}.
Proof.
  split; [reflexivity|].
  destruct (SelectFromForTag_columns userStruct _ "t" "" eq_refl) as [Hselect _].
  rewrite Hselect. reflexivity.
Defined.

(** A type without tags: the unexported field [b] has no column. *)
Lemma ColumnsForTag_aliases_witness :
  dereferencedType (TypeOf (Some (VPtr (VStruct plainType [])))) = Ok (TStruct plainType)
  /\ Forall (fun f => fieldTag f = plainTag) (typeFields plainType)
  /\ ColumnsForTag userStruct "" = Ok ["id"; "name"]
  /\ exists h' s c,
       NewStruct (H := sampleExternals) initHeap (Some (VPtr (VStruct plainType [])))
       = Ok (h', s)
       /\ h' !! s = Some c
       /\ ColumnsForTag c "" = Ok ["A"; "C"].
Proof.
  assert (Hplain : Forall (fun f => fieldTag f = plainTag) (typeFields plainType))
    by (repeat constructor).
  split; [reflexivity|]. split; [exact Hplain|].
  destruct (ColumnsForTag_aliases (H := sampleExternals)) as (Hview & _ & Hnew).
  split.
  - destruct (Hview userStruct _ "" eq_refl) as [Hcols _]. rewrite Hcols. reflexivity.
  - apply (Hnew initHeap (Some (VPtr (VStruct plainType []))) plainType eq_refl Hplain).
Defined.

(** [WithTag] on the mapper of [User] at address 1. *)
Lemma configure_copies_witness :
  (initHeap ++ [userStruct]) !! 1 = Some userStruct
  /\ exists h' r,
       configure (initHeap ++ [userStruct]) 1 (ConfWithTag "update") = Ok (h', r)
       /\ h' !! 1 = Some userStruct.
Proof.
  split; [reflexivity|].
  destruct (configure_copies (initHeap ++ [userStruct]) 1 userStruct
              (ConfWithTag "update") eq_refl)
    as (h' & r & Hconf & Hs & _).
  exists h', r. split; [exact Hconf | exact Hs].
Defined.

(** C9, as stated, fails for [WithFieldMapper] on the dummy mapper: it
    returns the address of [emptyStruct], which is no new instance. *)
Lemma new_instance_counterexample :
  ~ newInstanceClaim (H := sampleExternals) initHeap emptyStructAddr
      (ConfWithFieldMapper (fun name => name)).
Proof.
  intros (c & h' & r & c' & _ & Hconf & Hfresh & _).
  cbv in Hconf. injection Hconf as <- <-.
  cbv in Hfresh. discriminate Hfresh.
Qed.

(** * The further facts at sample inputs *)

Lemma empty_value_dereference_witness :
  isEmptyValue (VNilPtr TString) = true
  /\ dereferencedValue (VNilPtr TString) = VInvalid.
Proof.
  split; [reflexivity|].
  destruct (empty_value_dereference (VNilPtr TString) eq_refl)
    as [(Hsame & _) | (Hzero & _)].
  - discriminate Hsame.
  - exact Hzero.
Defined.

Lemma ValuesForTag_columns_witness :
  dereferencedValue (ValueOf (Some (VPtr (user 2 "x"))))
  = VStruct userType [("ID", VInt 2); ("Name", VString "x")]
  /\ ValuesForTag userStruct "" (Some (VPtr (user 2 "x")))
     = Ok [Some (VInt 2); Some (VString "x")]
  /\ ColumnsForTag userStruct "" = Ok ["id"; "name"].
Proof.
  split; [reflexivity|].
  destruct (ValuesForTag_columns userStruct _ _ userType
              [("ID", VInt 2); ("Name", VString "x")] "" (Some (VPtr (user 2 "x")))
              eq_refl eq_refl eq_refl eq_refl) as [Hvalues _].
  destruct (Hvalues ltac:(repeat constructor)) as (values & Hv & Hall & Hcols & _).
  split; [|exact Hcols]. rewrite Hv. f_equal.
  inversion Hall as [|? d1 ? vs1 H1 Hall1]; subst.
  inversion Hall1 as [|? d2 ? vs2 H2 Hall2]; subst.
  inversion Hall2; subst.
  injection H1 as <-. injection H2 as <-. reflexivity.
Defined.


Lemma AddrForTag_by_value_panics_witness :
  derefCanAddr (ValueOf (Some (user 2 "x"))) = false
  /\ AddrForTag userStruct "" (Some (user 2 "x")) = Panic Unaddressable.
Proof.
  split; [reflexivity|].
  destruct (AddrForTag_by_value_panics userStruct _ _ userType
              [("ID", VInt 2); ("Name", VString "x")] "" (Some (user 2 "x"))
              eq_refl eq_refl eq_refl eq_refl eq_refl ltac:(discriminate))
    as [Hpanic _].
  exact Hpanic.
Defined.

Lemma WithTag_default_tag_witness :
  (initHeap ++ [taggedStruct]) !! 1 = Some taggedStruct
  /\ exists h' r,
       WithTag (initHeap ++ [taggedStruct]) 1 "new" = Ok (h', r)
       /\ call h' r Columns = Ok ["id"].
Proof.
  split; [reflexivity|].
  destruct (WithTag_default_tag (initHeap ++ [taggedStruct]) 1 taggedStruct "new" eq_refl)
    as (h' & r & Hwith & _ & _ & _ & _ & _ & _ & Hcols & _).
  exists h', r. split; [exact Hwith|]. rewrite Hcols. reflexivity.
Defined.

Lemma For_keeps_extraction_witness :
  (initHeap ++ [userStruct]) !! 1 = Some userStruct
  /\ exists h' r,
       For (initHeap ++ [userStruct]) 1 (7 : @Flavor sampleExternals) = Ok (h', r)
       /\ call h' r (fun c => ColumnsForTag c "") = Ok ["id"; "name"].
Proof.
  split; [reflexivity|].
  destruct (For_keeps_extraction (initHeap ++ [userStruct]) 1 userStruct
              (7 : @Flavor sampleExternals) eq_refl)
    as (h' & r & Hfor & Hcols & _).
  exists h', r. split; [exact Hfor|]. rewrite Hcols. reflexivity.
Defined.

Lemma configuration_composes_witness :
  (initHeap ++ [userStruct]) !! 1 = Some userStruct
  /\ exists h1 r1 h2 r2,
       For (initHeap ++ [userStruct]) 1 (7 : @Flavor sampleExternals) = Ok (h1, r1)
       /\ WithTag h1 r1 "edit" = Ok (h2, r2)
       /\ Struct_structTag <$> h2 !! r2 = Some "edit".
Proof.
  split; [reflexivity|].
  destruct (configuration_composes (initHeap ++ [userStruct]) 1 userStruct
              (7 : @Flavor sampleExternals) "edit" "new" eq_refl)
    as ((h1 & r1 & h2 & r2 & Hfor & Hwith & Hcell) & _).
  exists h1, r1, h2, r2. split; [exact Hfor|]. split; [exact Hwith|].
  rewrite Hcell. reflexivity.
Defined.

Lemma mapper_store_consistent_witness :
  Forall consistent (initHeap (H := sampleExternals))
  /\ exists h' r,
       NewStruct (H := sampleExternals) initHeap (Some (user 0 "")) = Ok (h', r)
       /\ Forall consistent h'.
Proof.
  assert (Hinit : Forall consistent (initHeap (H := sampleExternals)))
    by (repeat constructor).
  split; [exact Hinit|].
  destruct (mapper_store_consistent initHeap Hinit) as (_ & Hnew & _).
  exists (initHeap ++ [userStruct]), 1. split; [reflexivity|].
  apply (Hnew (Some (user 0 "")) _ 1 ltac:(by eexists) eq_refl).
Defined.

Lemma NewStruct_through_pointer_witness :
  Value_Type (user 0 "") = Ok (TStruct userType)
  /\ NewStruct (H := sampleExternals) initHeap (Some (VPtr (user 0 "")))
     = Ok (initHeap ++ [userStruct], 1).
Proof.
  split; [reflexivity|].
  destruct (NewStruct_through_pointer (H := sampleExternals) initHeap (user 0 "")
              (TStruct userType) eq_refl) as [Hptr _].
  rewrite Hptr. reflexivity.
Defined.

Lemma UpdateForTag_bare_witness :
  Tag (makeDefaultFieldsParser (TStruct taggedType) ()) "other" = None
  /\ UpdateForTag taggedStruct "t" "other" None
     = Ok {| ub_flavor := sampleFlavor; ub_table := "t"; ub_assignments := [] |}
  /\ UpdateForTag taggedStruct "t" "edit" (Some (user 1 "x"))
     = Ok {| ub_flavor := sampleFlavor; ub_table := "t"; ub_assignments := [] |}
  /\ UpdateForTag taggedStruct "t" "edit" None = Panic ZeroValueType.
Proof.
  split; [reflexivity|].
  destruct (UpdateForTag_bare taggedStruct _ "t" "other" eq_refl) as (Habsent & _).
  destruct (UpdateForTag_bare taggedStruct _ "t" "edit" eq_refl) as (_ & Hother & Hnil).
  split; [exact (Habsent eq_refl None)|].
  split; [exact (Hother (Some (user 1 "x")) (TStruct userType) eq_refl ltac:(discriminate))|].
  exact (Hnil None ltac:(discriminate) eq_refl).
Defined.

Lemma absent_view_ignores_records_witness :
  Tag (makeDefaultFieldsParser (TStruct taggedType) ()) "other" = None
  /\ InsertIntoForTag taggedStruct "t" "other" [None; Some (tagged 1 VNilInterface)]
     = Ok {| ib_flavor := sampleFlavor; ib_verb := verbInsert; ib_table := "t";
             ib_cols := []; ib_values := [] |}.
Proof.
  split; [reflexivity|].
  destruct (absent_view_ignores_records taggedStruct _ "other" eq_refl eq_refl)
    as (_ & Hinsert & _).
  apply Hinsert.
Defined.

Lemma nil_record_panics_witness :
  Exists (fun item => isRecord item = false) [Some (user 1 "a"); None]
  /\ InsertIntoForTag userStruct "t" "" [Some (user 1 "a"); None] = Panic ZeroValueType.
Proof.
  assert (Hnil : Exists (fun item => isRecord item = false) [Some (user 1 "a"); None])
    by (right; left; reflexivity).
  split; [exact Hnil|].
  destruct (nil_record_panics userStruct _ _ "t" "" [Some (user 1 "a"); None]
              eq_refl eq_refl Hnil) as (Hinsert & _).
  exact Hinsert.
Defined.

Lemma insert_scaffold_rectangular_witness :
  matchingValues userStruct [Some (user 1 ""); Some (VInt 7); Some (VPtr (user 2 "x"))]
  = Ok [user 1 ""; user 2 "x"]
  /\ exists ib,
       InsertIntoForTag userStruct "t" ""
         [Some (user 1 ""); Some (VInt 7); Some (VPtr (user 2 "x"))] = Ok ib
       /\ length (ib_values ib) = 2
       /\ Forall (fun row => length row = length (ib_cols ib)) (ib_values ib).
Proof.
  split; [reflexivity|].
  destruct (insert_scaffold_rectangular userStruct _ _ userType "t" ""
              [Some (user 1 ""); Some (VInt 7); Some (VPtr (user 2 "x"))]
              [user 1 ""; user 2 "x"]
              eq_refl eq_refl eq_refl eq_refl ltac:(discriminate))
    as (ib & Hinsert & Hrows & Hrect & _).
  exists ib. split; [exact Hinsert|]. split; [exact Hrows | exact Hrect].
Defined.

Lemma insert_columns_monotone_witness :
  matchingValues userStruct [Some (user 1 "")] = Ok [user 1 ""]
  /\ matchingValues userStruct [Some (user 2 "x")] = Ok [user 2 "x"]
  /\ exists ib1 ib2,
       buildColsAndValuesForTag userStruct (NewInsertBuilder sampleFlavor) ""
         [Some (user 1 "")] = Ok ib1
       /\ buildColsAndValuesForTag userStruct (NewInsertBuilder sampleFlavor) ""
            ([Some (user 1 "")] ++ [Some (user 2 "x")]) = Ok ib2
       /\ ib_cols ib1 `sublist_of` ib_cols ib2.
Proof.
  split; [reflexivity|]. split; [reflexivity|].
  apply (insert_columns_monotone userStruct _ _ userType (NewInsertBuilder sampleFlavor) ""
           [Some (user 1 "")] [Some (user 2 "x")] [user 1 ""] [user 2 "x"]
           eq_refl eq_refl eq_refl eq_refl eq_refl ltac:(discriminate)).
Defined.

Lemma insert_without_omitempty_witness :
  matchingValues taggedStruct [Some (tagged 1 (VNilPtr TString))]
  = Ok [tagged 1 (VNilPtr TString)]
  /\ exists ib',
       buildColsAndValuesForTag taggedStruct (NewInsertBuilder sampleFlavor) "edit"
         [Some (tagged 1 (VNilPtr TString))] = Ok ib'
       /\ ib_cols ib' = ["id"; "Note"]
       /\ ib_values ib' = [[Some (VInt 1); nil]].
Proof.
  split; [reflexivity|].
  destruct (insert_without_omitempty taggedStruct _ _ taggedType
              (NewInsertBuilder sampleFlavor) "edit"
              [Some (tagged 1 (VNilPtr TString))] [tagged 1 (VNilPtr TString)]
              eq_refl eq_refl eq_refl eq_refl ltac:(discriminate)
              ltac:(repeat constructor))
    as (ib' & Hbuild & Hcols & Hrows).
  exists ib'. split; [exact Hbuild|]. split.
  - rewrite Hcols. reflexivity.
  - rewrite Hrows. reflexivity.
Defined.

Lemma same_record_same_result_witness :
  sameRecord (Some (VPtr (VPtr (user 1 "")))) (Some (user 1 ""))
  /\ UpdateForTag userStruct "t" "" (Some (VPtr (VPtr (user 1 ""))))
     = UpdateForTag userStruct "t" "" (Some (user 1 "")).
Proof.
  split; [reflexivity|].
  destruct (same_record_same_result userStruct "") as (Hsingle & _).
  destruct (Hsingle (Some (VPtr (VPtr (user 1 "")))) (Some (user 1 "")) "t" eq_refl)
    as [Hupdate _].
  exact Hupdate.
Defined.

(** A [Tagged] whose [Note] holds a nil pointer inside an interface. *)
Lemma UpdateForTag_zero_value_panics_witness :
  dereferencedValue (ValueOf (Some (VPtr (tagged 1 (VInterface (VNilPtr TInt))))))
  = VStruct taggedType [("ID", VInt 1); ("Note", VInterface (VNilPtr TInt))]
  /\ UpdateForTag taggedStruct "t" "edit"
       (Some (VPtr (tagged 1 (VInterface (VNilPtr TInt)))))
     = Panic ZeroValueInterface
  /\ InsertIntoForTag taggedStruct "t" "edit"
       [Some (VPtr (tagged 1 (VInterface (VNilPtr TInt))))]
     = Ok {| ib_flavor := sampleFlavor; ib_verb := verbInsert; ib_table := "t";
             ib_cols := ["id"; "Note"]; ib_values := [[Some (VInt 1); nil]] |}.
Proof.
  split; [reflexivity|].
  destruct (UpdateForTag_zero_value_panics taggedStruct _ _ taggedType
              [("ID", VInt 1); ("Note", VInterface (VNilPtr TInt))] "t" "edit"
              (Some (VPtr (tagged 1 (VInterface (VNilPtr TInt)))))
              {| Name := "Note"; ColumnName := "Note"; Alias := "Note";
                 Tags := ["edit"]; IsQuoted := false; omitEmptyTags := [] |}
              (InsertBuilder_InsertInto (NewInsertBuilder sampleFlavor) "t")
              eq_refl eq_refl eq_refl eq_refl
              ltac:(right; left) eq_refl eq_refl)
    as (_ & Hupdate & _ & _ & Hinsert).
  split; [exact Hupdate|].
  etransitivity; [exact Hinsert | reflexivity].
Defined.

(** A nil [*Plain] where a [User] is expected. *)
Lemma typed_nil_record_panics_witness :
  dereferencedType (TypeOf (Some (VNilPtr (TStruct plainType)))) = Ok (TStruct plainType)
  /\ Some (TStruct plainType) <> Struct_structType userStruct
  /\ ValuesForTag userStruct "" (Some (VNilPtr (TStruct plainType))) = Panic ZeroValueType
  /\ InsertIntoForTag userStruct "t" ""
       [Some (user 1 "a"); Some (VNilPtr (TStruct plainType))]
     = Panic ZeroValueType.
Proof.
  assert (Hother : Some (TStruct plainType) <> Struct_structType userStruct)
    by discriminate.
  split; [reflexivity|]. split; [exact Hother|].
  destruct (typed_nil_record_panics userStruct _ _ "t" "" (TStruct plainType)
              (TStruct plainType)
              [Some (user 1 "a"); Some (VNilPtr (TStruct plainType))]
              eq_refl eq_refl eq_refl Hother ltac:(right; left))
    as (Hvalues & _ & _ & _ & Hinsert & _).
  split; [exact Hvalues | exact Hinsert].
Defined.
